(** * Semantic search engine: retrieval and ranking pipeline

    A shallow embedding of [src/semantic-search/search.py]
    (class [SemanticSearchEngine]) and the properties of its ranking,
    normalisation and response assembly.

    Python values are modelled as follows.
    - [float] is an IEEE 754 binary64 number, given by the Standard
      Library's [spec_float] at precision 53 and maximal exponent 1024;
      comparisons with NaN are false, as in Python.
    - [int] is [Z]; [str] is the list of its Unicode code points.
    - a [dict] built by a literal is an association list from keys to
      values, in the order of the literal.
    - an exception is a value of [exn]; a method of the engine is a
      function from the state (the engine's attributes and the world
      outside) to a result or an exception, and the state reached.
    - [print] writes to the standard output, a UTF-8 text stream with
      the strict error handler, as Python opens it in a UTF-8 locale:
      it raises [UnicodeEncodeError] on a text that holds a surrogate
      code point, and returns otherwise; what it writes is not kept,
      nothing reads it.
    - [list.sort] is the interpreter's: it is a parameter of the
      methods, of which is known what the language promises (a
      rearrangement, sorted and stable when [<] orders the keys). *)

From Stdlib Require Import ZArith NArith List Bool String Ascii Lia.
From Stdlib Require Import Sorting.Sorted Sorting.Permutation SpecFloat.
Import ListNotations.
Open Scope Z_scope.
Set Warnings "-register-all".

(** ** Python floats *)

Module PyFloat.

Definition prec : Z := 53.
Definition emax : Z := 1024.

Definition float := spec_float.

(** [float(n)] for an integer [n], rounded to nearest even. *)
Definition of_Z (n : Z) : float := binary_normalize prec emax n 0 false.

Definition zero : float := S754_zero false.
Definition one : float := of_Z 1.
Definition nan : float := S754_nan.

Definition neg (x : float) : float := SFopp x.
Definition add (x y : float) : float := SFadd prec emax x y.
Definition sub (x y : float) : float := SFsub prec emax x y.
Definition mul (x y : float) : float := SFmul prec emax x y.
Definition div (x y : float) : float := SFdiv prec emax x y.
Definition sqrt (x : float) : float := SFsqrt prec emax x.

Definition eqb (x y : float) : bool := SFeqb x y.
Definition ltb (x y : float) : bool := SFltb x y.
Definition leb (x y : float) : bool := SFleb x y.
Definition gtb (x y : float) : bool := ltb y x.

(** [math.isnan]. *)
Definition isnan (x : float) : bool :=
  match x with S754_nan => true | _ => false end.

(** Truth value of a float: [x != 0.0]; NaN is true. *)
Definition truthy (x : float) : bool := negb (eqb x zero).

(** The builtins [min(a, b)] and [max(a, b)]: the first argument is
    kept unless the second is strictly smaller (strictly larger). *)
Definition py_min (a b : float) : float := if ltb b a then b else a.
Definition py_max (a b : float) : float := if gtb b a then b else a.

(** Every IEEE double is a [spec_float] whose mantissa and exponent are
    in canonical form; [valid] says so. *)
Definition valid (x : float) : bool := valid_binary prec emax x.

(** Nearest integer to [p / q] for [0 < q], ties to the even one. *)
Definition round_half_even (p q : Z) : Z :=
  let (d, r) := Z.div_eucl p q in
  match 2 * r ?= q with
  | Lt => d
  | Gt => d + 1
  | Eq => if Z.even d then d else d + 1
  end.

(** [m * 2^e * 10^ndigits] rounded to the nearest integer, ties to even. *)
Definition scale_round (m : positive) (e : Z) (ndigits : nat) : Z :=
  let p := Zpos m * 10 ^ Z.of_nat ndigits in
  if 0 <=? e then p * 2 ^ e else round_half_even p (2 ^ (- e)).

(** [round(x, ndigits)] for [ndigits >= 0] (float.__round__): a NaN or
    an infinity is returned as it is; a finite [x] is rounded, on its
    exact value and ties to even, to [n / 10^ndigits], and the result is
    the double nearest to that decimal.  [SFdiv] rounds the exact
    quotient of its arguments, whatever the size of their mantissas. *)
Definition round (x : float) (ndigits : nat) : float :=
  match x with
  | S754_finite s m e =>
      match scale_round m e ndigits with
      | Zpos n =>
          div (S754_finite s n 0)
              (S754_finite false (Z.to_pos (10 ^ Z.of_nat ndigits)) 0)
      | _ => S754_zero s
      end
  | _ => x
  end.

End PyFloat.

Import PyFloat.

(** The exceptions the methods raise: Python's own, and the failure of
    the embedding generator. *)
Inductive exn : Set :=
| IndexError
| ValueError
| OverflowError
| FileNotFoundError
| UnicodeEncodeError
| EmbeddingUnavailable.

(** [int(x)]: truncation towards zero; [ValueError] on NaN and
    [OverflowError] on an infinity. *)
Definition py_int (x : float) : exn + Z :=
  match x with
  | S754_zero _ => inr 0
  | S754_nan => inl ValueError
  | S754_infinity _ => inl OverflowError
  | S754_finite s m e =>
      let a := if 0 <=? e then Zpos m * 2 ^ e else Zpos m / 2 ^ (- e) in
      inr (if s then - a else a)
  end.

(** ** Python strings and slices *)

Definition str := list N.

(** [str.isspace] on one code point (Py_UNICODE_ISSPACE). *)
Definition is_space (c : N) : bool :=
  (((9 <=? c) && (c <=? 13)) || ((28 <=? c) && (c <=? 32))
   || (c =? 133) || (c =? 160) || (c =? 5760)
   || ((8192 <=? c) && (c <=? 8202)) || (c =? 8232) || (c =? 8233)
   || (c =? 8239) || (c =? 8287) || (c =? 12288))%N.

Fixpoint lstrip (s : str) : str :=
  match s with
  | c :: s' => if is_space c then lstrip s' else s
  | [] => []
  end.

Definition rstrip (s : str) : str := rev (lstrip (rev s)).

(** [s.strip()]. *)
Definition strip (s : str) : str := rstrip (lstrip s).

Definition str_is_empty (s : str) : bool :=
  match s with [] => true | _ => false end.

(** The code points of an ASCII literal. *)
Definition str_of (s : string) : str :=
  map N_of_ascii (list_ascii_of_string s).

(** A surrogate code point (U+D800 to U+DFFF): a [str] may hold one,
    UTF-8 has no encoding for it. *)
Definition is_surrogate (c : N) : bool :=
  ((55296 <=? c) && (c <=? 57343))%N.

(** The text can be encoded for the standard output. *)
Definition encodable (text : str) : bool :=
  forallb (fun c => negb (is_surrogate c)) text.

(** [str(n)] for an int [n]: its decimal digits, after a minus sign
    below zero. *)
Fixpoint digits (d : Decimal.uint) : str :=
  match d with
  | Decimal.Nil => []
  | Decimal.D0 d' => 48%N :: digits d'
  | Decimal.D1 d' => 49%N :: digits d'
  | Decimal.D2 d' => 50%N :: digits d'
  | Decimal.D3 d' => 51%N :: digits d'
  | Decimal.D4 d' => 52%N :: digits d'
  | Decimal.D5 d' => 53%N :: digits d'
  | Decimal.D6 d' => 54%N :: digits d'
  | Decimal.D7 d' => 55%N :: digits d'
  | Decimal.D8 d' => 56%N :: digits d'
  | Decimal.D9 d' => 57%N :: digits d'
  end.

Definition str_of_int (n : Z) : str :=
  match Z.to_int n with
  | Decimal.Pos d => digits d
  | Decimal.Neg d => 45%N :: digits d
  end.

(** The texts the methods print: the literals and f-strings of lines
    23, 26, 33, 37, 79, 83 and 121.  U+2713 is the check mark and
    U+1F50D the magnifying glass of the source. *)
Definition check_mark : N := 10003.
Definition magnifying_glass : N := 128269.

Definition loading_message : str := str_of "Loading documents...".

Definition loaded_message (n : nat) : str :=
  check_mark :: str_of " Loaded " ++ str_of_int (Z.of_nat n)
             ++ str_of " documents".

Definition computing_message : str :=
  str_of "No cached embeddings found. Computing...".

Definition ready_message (n : nat) : str :=
  check_mark :: str_of " Ready with " ++ str_of_int (Z.of_nat n)
             ++ str_of " document embeddings".

Definition searching_message (query : str) : str :=
  10%N :: magnifying_glass :: str_of " Searching for: '" ++ query
       ++ str_of "'".

Definition found_message (n : nat) : str :=
  check_mark :: str_of " Found " ++ str_of_int (Z.of_nat n)
             ++ str_of " candidates".

Definition completed_message (latency : Z) : str :=
  check_mark :: str_of " Search completed in " ++ str_of_int latency
             ++ str_of "ms".

(** [l[:k]]: a negative [k] counts from the end. *)
Definition slice_to {A : Type} (l : list A) (k : Z) : list A :=
  if k <? 0 then firstn (Z.to_nat (Z.of_nat (List.length l) + k)) l
  else firstn (Z.to_nat k) l.

(** ** Data model *)

Definition vec := list float.

(** One record of the corpus file: [id] and [content] are read with
    [d['id']], [title] and [source] with [d.get(_, '')]. *)
Record document : Type := {
  doc_id : Z;
  doc_content : str;
  doc_title : option str;
  doc_source : option str
}.

(** The dict appended to [similarities] in [vector_search]. *)
Record candidate : Type := {
  cand_id : Z;
  cand_score : float;
  cand_content : str;
  cand_title : str;
  cand_source : str
}.

(** Values of the response: what [search] returns is a dict of dicts,
    lists and scalars, keyed by the literals of the source. *)
Inductive value : Type :=
| VBool (b : bool)
| VInt (n : Z)
| VFloat (x : float)
| VStr (s : str)
| VList (l : list value)
| VDict (d : list (string * value)).

Fixpoint dict_get (d : list (string * value)) (k : string) : option value :=
  match d with
  | [] => None
  | (k', v) :: d' => if String.eqb k k' then Some v else dict_get d' k
  end.

Definition keys (v : value) : list string :=
  match v with VDict d => map fst d | _ => [] end.

Definition field (v : value) (k : string) : option value :=
  match v with VDict d => dict_get d k | _ => None end.

(** ** [list.sort(key=lambda x: (-x['score'], x['id']))] *)

Definition sort_key (x : candidate) : float * Z :=
  (neg (cand_score x), cand_id x).

(** [a < b] on the key tuples: the first components that are not [==]
    decide; two NaN are never [==]. *)
Definition tuple_lt (a b : float * Z) : bool :=
  if negb (eqb (fst a) (fst b)) then ltb (fst a) (fst b)
  else if negb (snd a =? snd b) then snd a <? snd b
  else false.

Section Sort.
Context {A K : Type} (key : A -> K) (lt : K -> K -> bool).

Fixpoint insert_sorted (x : A) (l : list A) : list A :=
  match l with
  | [] => [x]
  | y :: l' =>
      if lt (key y) (key x) then y :: insert_sorted x l' else x :: l
  end.

(** The sorted and stable rearrangement of a list, by insertion: the
    measure of what [list.sort] returns when [<] orders the keys.  It
    is not the interpreter's algorithm: on keys that [<] does not
    order (a NaN among them) the two may differ. *)
Fixpoint list_sort (l : list A) : list A :=
  match l with
  | [] => []
  | x :: l' => insert_sorted x (list_sort l')
  end.

(** [<] orders the keys of the list: it is asymmetric there and its
    complement is transitive (a strict weak order). *)
Definition consistent (l : list A) : Prop :=
  (forall a b, In a l -> In b l ->
     lt (key a) (key b) = true -> lt (key b) (key a) = false) /\
  (forall a b c, In a l -> In b l -> In c l ->
     lt (key b) (key a) = false -> lt (key c) (key b) = false ->
     lt (key c) (key a) = false).
End Sort.

(** [list.sort(key=...)] as the language gives it: the items are
    compared by [<] on their keys only; the result is a rearrangement
    of the list, and when [<] orders the keys it is the sorted and
    stable one.  Nothing more is known of the result when [<] does not
    order the keys: it then depends on the runs and merges of the
    interpreter's algorithm. *)
Record sorter : Type := {
  sort_by : forall A K : Type,
      (A -> K) -> (K -> K -> bool) -> list A -> list A;
  sort_permutes : forall A K (key : A -> K) lt l,
      Permutation l (sort_by A K key lt l);
  sort_orders : forall A K (key : A -> K) lt l,
      consistent key lt l -> sort_by A K key lt l = list_sort key lt l
}.

Arguments sort_by _ {A K} key lt l.

(** The insertion sort is such a sort: it serves in the examples. *)
Definition insertion_sorter : sorter.
Proof.
  refine {| sort_by := fun A K key lt l => list_sort key lt l;
            sort_permutes := _;
            sort_orders := fun A K key lt l _ => eq_refl |}.
  intros A K key lt l.
  induction l as [|x l IH]; simpl; [constructor|].
  apply (perm_trans (perm_skip x IH)).
  generalize (list_sort key lt l). clear. intros l.
  induction l as [|y l IH]; simpl; [reflexivity|].
  destruct (lt (key y) (key x)); [|reflexivity].
  apply (perm_trans (perm_swap y x l)). now apply perm_skip.
Defined.

(** ** The engine and the world around it *)

Record engine : Type := {
  documents : list document;
  embeddings : list vec
}.

(** What the engine reaches outside itself: the corpus file at
    [Config.DATA_PATH], the embedding cache, the clock, and the calls
    made to the embedding generator and to the re-ranker. *)
Record world : Type := {
  data_file : option (list document);
  cache_file : option (list vec);
  clock_reads : nat;
  embed_calls : list str;
  rerank_calls : nat
}.

Record state : Type := { self : engine; env : world }.

Definition M (A : Type) : Type := state -> (exn + A) * state.

Definition ret {A : Type} (a : A) : M A := fun s => (inr a, s).

Definition raise {A : Type} (e : exn) : M A := fun s => (inl e, s).

Definition bind {A B : Type} (c : M A) (k : A -> M B) : M B :=
  fun s =>
    match c s with
    | (inl e, s') => (inl e, s')
    | (inr a, s') => k a s'
    end.

Definition lift {A : Type} (r : exn + A) : M A :=
  match r with inl e => raise e | inr a => ret a end.

Declare Scope py_scope.
Delimit Scope py_scope with py.
Notation "x <- c ;; k" := (bind c (fun x => k))
  (at level 61, c at next level, right associativity) : py_scope.
Notation "c ;;; k" := (bind c (fun _ => k))
  (at level 61, right associativity) : py_scope.
Open Scope py_scope.

Definition get_self : M engine := fun s => (inr (self s), s).

Definition set_documents (d : list document) : M unit :=
  fun s =>
    (inr tt,
     {| self := {| documents := d; embeddings := embeddings (self s) |};
        env := env s |}).

Definition set_embeddings (e : list vec) : M unit :=
  fun s =>
    (inr tt,
     {| self := {| documents := documents (self s); embeddings := e |};
        env := env s |}).

Definition with_env (w : world -> world) : M unit :=
  fun s => (inr tt, {| self := self s; env := w (env s) |}).

Definition get_env : M world := fun s => (inr (env s), s).

(** [print(text)]. *)
Definition py_print (text : str) : M unit :=
  if encodable text then ret tt else raise UnicodeEncodeError.

Arguments py_print : simpl never.

(** ** The engine's methods *)

(** The three ways a method touches the world. *)
Definition tick (w : world) : world :=
  {| data_file := data_file w; cache_file := cache_file w;
     clock_reads := S (clock_reads w); embed_calls := embed_calls w;
     rerank_calls := rerank_calls w |}.

Definition record_embed_call (query : str) (w : world) : world :=
  {| data_file := data_file w; cache_file := cache_file w;
     clock_reads := clock_reads w; embed_calls := embed_calls w ++ [query];
     rerank_calls := rerank_calls w |}.

Definition write_cache (e : list vec) (w : world) : world :=
  {| data_file := data_file w; cache_file := Some e;
     clock_reads := clock_reads w; embed_calls := embed_calls w;
     rerank_calls := rerank_calls w |}.

(** [not query or query.strip() == ''] *)
Definition blank (query : str) : bool :=
  str_is_empty query || str_is_empty (strip query).

(** The dict appended at lines 48-54; a missing [title] or [source]
    reads as the empty string. *)
Definition make_candidate (d : document) (similarity : float) : candidate :=
  {| cand_id := doc_id d;
     cand_score := similarity;
     cand_content := doc_content d;
     cand_title := match doc_title d with Some t => t | None => [] end;
     cand_source := match doc_source d with Some t => t | None => [] end |}.

(** The score of a result (line 105).  [s] is what [r.get('score')]
    finds: [None] when the key is missing.  [v or 0.0] replaces a
    false [v] by [0.0]. *)
Definition normalize_score (s : option float) : float :=
  let v := match s with
           | Some v => if truthy v then v else zero
           | None => zero
           end in
  round (py_max zero (py_min one (if isnan v then zero else v))) 4.

Definition format_result (r : candidate) : value :=
  VDict [("id", VInt (cand_id r));
         ("score", VFloat (normalize_score (Some (cand_score r))));
         ("content", VStr (cand_content r));
         ("metadata", VDict [("title", VStr (cand_title r));
                             ("source", VStr (cand_source r))])]%string.

Section Engine.

(** The collaborators imported from [embeddings] and the clock.
    [get_embedding] is [None] when the model cannot be reached and the
    call raises; [time_time n] is what the [n]-th call of
    [time.time()] reads. *)
Variable get_embedding : str -> option vec.
Variable compute_document_embeddings : list document -> list vec.
Variable cosine_similarity : vec -> vec -> float.
Variable time_time : nat -> float.

(** The sort of the interpreter the engine runs on. *)
Variable sorting : sorter.

(** Modelled from the spec: [load_embeddings] and [save_embeddings]
    of the module [embeddings], which is not among the sources; the
    cache holds the vector sequence as a unit, or is absent. *)
Definition load_embeddings : M (option (list vec)) :=
  w <- get_env ;; ret (cache_file w).

Definition save_embeddings (e : list vec) : M unit :=
  with_env (write_cache e).

(** A call of [get_embedding]: recorded in the world, then the vector
    or the failure. *)
Definition call_get_embedding (query : str) : M vec :=
  with_env (record_embed_call query) ;;;
  match get_embedding query with
  | Some v => ret v
  | None => raise EmbeddingUnavailable
  end.

(** A call of [time.time()]. *)
Definition call_time : M float :=
  w <- get_env ;;
  with_env tick ;;;
  ret (time_time (clock_reads w)).

(** [load_documents]: [json.load] of the corpus file. *)
Definition load_documents : M unit :=
  py_print loading_message ;;;
  w <- get_env ;;
  match data_file w with
  | Some d =>
      set_documents d ;;;
      me <- get_self ;;
      py_print (loaded_message (List.length (documents me)))
  | None => raise FileNotFoundError
  end.

Definition load_or_compute_embeddings : M unit :=
  cached <- load_embeddings ;;
  match cached with
  | Some e => set_embeddings e
  | None =>
      py_print computing_message ;;;
      me <- get_self ;;
      let e := compute_document_embeddings (documents me) in
      set_embeddings e ;;;
      save_embeddings e
  end ;;;
  me <- get_self ;;
  py_print (ready_message (List.length (embeddings me))).

(** [__init__], from the attributes' initial values. *)
Definition init : M unit :=
  set_documents [] ;;;
  set_embeddings [] ;;;
  load_documents ;;;
  load_or_compute_embeddings.

(** The loop of [vector_search]: [i] is the index [enumerate] has
    reached and [similarities] the list appended to so far;
    [documents[i]] raises [IndexError] past the end. *)
Fixpoint score_loop (docs : list document) (query_embedding : vec)
         (i : nat) (embs : list vec) (similarities : list candidate)
  : exn + list candidate :=
  match embs with
  | [] => inr similarities
  | doc_embedding :: rest =>
      let similarity := cosine_similarity query_embedding doc_embedding in
      match nth_error docs i with
      | None => inl IndexError
      | Some d =>
          score_loop docs query_embedding (S i) rest
            (similarities ++ [make_candidate d similarity])
      end
  end.

Definition vector_search (query_embedding : vec) (k : Z)
  : M (list candidate) :=
  me <- get_self ;;
  similarities <- lift (score_loop (documents me) query_embedding 0
                                   (embeddings me) []) ;;
  let similarities := sort_by sorting sort_key tuple_lt similarities in
  ret (slice_to similarities k).

Definition search (query : str) (k : Z) (rerank : bool) (rerank_k : Z)
  : M value :=
  start_time <- call_time ;;
  if blank query then
    me <- get_self ;;
    ret (VDict [("results", VList []);
                ("reranked", VBool false);
                ("metrics",
                 VDict [("latency", VInt 0);
                        ("totalDocs",
                         VInt (Z.of_nat (List.length (documents me))))])
               ]%string)
  else
    py_print (searching_message query) ;;;
    query_embedding <- call_get_embedding query ;;
    candidates <- vector_search query_embedding k ;;
    py_print (found_message (List.length candidates)) ;;;
    let final_candidates := candidates in
    let results :=
      if rerank then slice_to final_candidates rerank_k
      else slice_to final_candidates k in
    end_time <- call_time ;;
    latency <- lift (py_int (mul (sub end_time start_time) (of_Z 1000))) ;;
    me <- get_self ;;
    let response :=
      VDict [("results", VList (map format_result results));
             ("reranked", VBool rerank);
             ("metrics",
              VDict [("latency", VInt latency);
                     ("totalDocs",
                      VInt (Z.of_nat (List.length (documents me))))])
            ]%string in
    py_print (completed_message latency) ;;;
    ret response.

End Engine.

(** ** The collaborators, from the spec *)

(** Modelled from the spec: [cosine_similarity] of the module
    [embeddings], which is not among the sources:
    [dot(a,b) / (|a| * |b|)], and [0] when either vector has zero
    magnitude. *)
Definition dot (a b : vec) : float :=
  fold_left add (map (fun p => mul (fst p) (snd p)) (combine a b)) zero.

Definition norm (a : vec) : float := sqrt (dot a a).

Definition cosine_similarity_spec (a b : vec) : float :=
  if eqb (norm a) zero || eqb (norm b) zero then zero
  else div (dot a b) (mul (norm a) (norm b)).

(** ** A small corpus for the examples *)

Module Example.

Definition doc (i : Z) (text : string) : document :=
  {| doc_id := i; doc_content := str_of text;
     doc_title := Some (str_of "t"); doc_source := None |}.

Definition corpus : list document :=
  [doc 1 "alpha"; doc 2 "beta"; doc 3 "gamma"].

(** Document 2 points along the query, document 1 at 45 degrees,
    document 3 is orthogonal to it. *)
Definition vectors : list vec :=
  [[of_Z 1; of_Z 1]; [of_Z 2; of_Z 0]; [of_Z 0; of_Z 5]].

Definition query_vector : vec := [of_Z 1; of_Z 0].

Definition embed (q : str) : option vec := Some query_vector.

Definition embed_documents (d : list document) : list vec :=
  map (fun _ => query_vector) d.

(** A clock that advances by a quarter of a second at each reading. *)
Definition clock (n : nat) : float := div (of_Z (Z.of_nat n)) (of_Z 4).

Definition outside : world :=
  {| data_file := Some corpus; cache_file := Some vectors;
     clock_reads := 0; embed_calls := []; rerank_calls := 0 |}.

Definition loaded : state :=
  {| self := {| documents := corpus; embeddings := vectors |};
     env := outside |}.

Definition run_search (q : str) (k : Z) (rerank : bool) (rerank_k : Z)
  : (exn + value) * state :=
  search embed cosine_similarity_spec clock insertion_sorter
         q k rerank rerank_k loaded.

(** The same corpus with a vector that has a NaN component. *)
Definition vectors_nan : list vec :=
  [[of_Z 1; of_Z 1]; [nan; of_Z 0]; [of_Z 1; of_Z 0]].

Definition loaded_nan : state :=
  {| self := {| documents := corpus; embeddings := vectors_nan |};
     env := outside |}.

(** A world with the corpus file and no cache, one whose cache was
    written for a corpus of two documents, and the engine before
    [__init__] runs. *)
Definition fresh : world :=
  {| data_file := Some corpus; cache_file := None;
     clock_reads := 0; embed_calls := []; rerank_calls := 0 |}.

Definition stale : world :=
  {| data_file := Some corpus;
     cache_file := Some [[of_Z 1; of_Z 1]; [of_Z 2; of_Z 0]];
     clock_reads := 0; embed_calls := []; rerank_calls := 0 |}.

Definition unborn (w : world) : state :=
  {| self := {| documents := []; embeddings := [] |}; env := w |}.

End Example.

(** ** What the properties are stated with *)

(** [a] may stand before [b] in a ranking: a strictly higher score, or
    an equal score and an id that is not larger. *)
Definition ranks_before (a b : candidate) : Prop :=
  gtb (cand_score a) (cand_score b) = true \/
  (eqb (cand_score a) (cand_score b) = true /\ cand_id a <= cand_id b).

(** Descending by score, ties by ascending id, between any two places
    of the list. *)
Definition ranked (l : list candidate) : Prop :=
  StronglySorted ranks_before l.

(** The results and the flag of a response, and the score of a result. *)
Definition results_of (resp : value) : option (list value) :=
  match field resp "results" with
  | Some (VList l) => Some l
  | _ => None
  end.

Definition reranked_of (resp : value) : option bool :=
  match field resp "reranked" with
  | Some (VBool b) => Some b
  | _ => None
  end.

Definition score_of (r : value) : option float :=
  match field r "score" with
  | Some (VFloat x) => Some x
  | _ => None
  end.

Definition id_of (r : value) : option Z :=
  match field r "id" with
  | Some (VInt n) => Some n
  | _ => None
  end.

(** The results a call returned, nothing when it raised. *)
Definition returned_results (r : (exn + value) * state)
  : option (list value) :=
  match fst r with
  | inr resp => results_of resp
  | inl _ => None
  end.

(** The float [n / 10000]: the double next to a number of four
    decimals. *)
Definition decimal4 (n : Z) : float := div (of_Z n) (of_Z 10000).


(** What [round] returns on the scaled integer [n], and the check that
    it is [n / 10000] inside the unit interval. *)
Definition rounded4 (n : Z) : float :=
  match n with
  | Zpos p => div (S754_finite false p 0)
                  (S754_finite false (Z.to_pos (10 ^ Z.of_nat 4)) 0)
  | _ => S754_zero false
  end.




(** The shape of a response, with the name of the latency field left
    open: the keys of each dict, in the order of the literal. *)
Definition result_shape (r : value) : Prop :=
  keys r = ["id"; "score"; "content"; "metadata"]%string /\
  (exists n, field r "id" = Some (VInt n)) /\
  (exists x, field r "score" = Some (VFloat x)) /\
  (exists s, field r "content" = Some (VStr s)) /\
  exists m, field r "metadata" = Some m /\
            keys m = ["title"; "source"]%string /\
            (exists s, field m "title" = Some (VStr s)) /\
            (exists s, field m "source" = Some (VStr s)).

Definition response_shape (latency_key : string) (resp : value) : Prop :=
  keys resp = ["results"; "reranked"; "metrics"]%string /\
  (exists l, field resp "results" = Some (VList l) /\ Forall result_shape l) /\
  (exists b, field resp "reranked" = Some (VBool b)) /\
  exists m, field resp "metrics" = Some m /\
            keys m = [latency_key; "totalDocs"%string] /\
            (exists n, field m latency_key = Some (VInt n)) /\
            (exists n, field m "totalDocs" = Some (VInt n)).

(** The shape the data model of the spec gives: [metrics.latencyMs]. *)
Definition spec_response_shape : value -> Prop := response_shape "latencyMs".

(** The shape the source builds: [metrics.latency]. *)
Definition code_response_shape : value -> Prop := response_shape "latency".

(** [c] is the candidate of the document [d] with the score
    [similarity]: the entries of the dict of lines 48-54, one by one. *)
Definition candidate_of (d : document) (similarity : float) (c : candidate)
  : Prop :=
  cand_id c = doc_id d /\
  cand_score c = similarity /\
  cand_content c = doc_content d /\
  cand_title c = match doc_title d with Some t => t | None => [] end /\
  cand_source c = match doc_source d with Some t => t | None => [] end.

(** The alignment of the two sequences of an engine. *)
Definition aligned (e : engine) : Prop :=
  List.length (embeddings e) = List.length (documents e).

Section Reachability.

Variable get_embedding : str -> option vec.
Variable compute_document_embeddings : list document -> list vec.
Variable cosine_similarity : vec -> vec -> float.
Variable time_time : nat -> float.
Variable sorting : sorter.

(** The states of a process that built its engine in the world [w0]
    and then answered any number of [search] calls; a call that raised
    leaves the process running. *)
Inductive reachable (w0 : world) : state -> Prop :=
| reach_init : forall s0 s,
    env s0 = w0 ->
    init compute_document_embeddings s0 = (inr tt, s) ->
    reachable w0 s
| reach_search : forall s query k rerank rerank_k,
    reachable w0 s ->
    reachable w0
      (snd (search get_embedding cosine_similarity time_time sorting
                   query k rerank rerank_k s)).

End Reachability.

(** A float that is not NaN has a place on a line of integer triples,
    ordered lexicographically: the sign class, then the exponent, then
    the mantissa (both reversed below zero). *)
Definition place (x : float) : Z * Z * Z :=
  match x with
  | S754_infinity true => (-2, 0, 0)
  | S754_finite true m e => (-1, - e, - Zpos m)
  | S754_zero _ => (0, 0, 0)
  | S754_nan => (0, 0, 0)
  | S754_finite false m e => (1, e, Zpos m)
  | S754_infinity false => (2, 0, 0)
  end.

Definition below (a b : Z * Z * Z) : Prop :=
  let '(a1, a2, a3) := a in
  let '(b1, b2, b3) := b in
  a1 < b1 \/ (a1 = b1 /\ (a2 < b2 \/ (a2 = b2 /\ a3 < b3))).

Definition lex_compare (a b : Z * Z * Z) : comparison :=
  let '(a1, a2, a3) := a in
  let '(b1, b2, b3) := b in
  match a1 ?= b1 with
  | Eq => match a2 ?= b2 with Eq => a3 ?= b3 | c => c end
  | c => c
  end.

(** Candidates whose score is a number. *)
Definition numeric (c : candidate) : Prop := isnan (cand_score c) = false.

(** [a] sorts strictly before [b]: a higher score, or the same score
    and a smaller id. *)
Definition sorts_before (a b : candidate) : Prop :=
  below (place (cand_score b)) (place (cand_score a)) \/
  (place (cand_score a) = place (cand_score b) /\ cand_id a < cand_id b).

(** The dict both [return] statements of [search] build. *)
Definition response (results : list value) (reranked : bool)
           (latency : Z) (total_docs : nat) : value :=
  VDict [("results", VList results);
         ("reranked", VBool reranked);
         ("metrics",
          VDict [("latency", VInt latency);
                 ("totalDocs", VInt (Z.of_nat total_docs))])]%string.

(** The states [search] leaves: after the guard, after the call of the
    embedding generator, and after the second reading of the clock. *)
Definition after_blank (s : state) : state :=
  {| self := self s; env := tick (env s) |}.

Definition after_call (query : str) (s : state) : state :=
  {| self := self s; env := record_embed_call query (tick (env s)) |}.

Definition after_search (query : str) (s : state) : state :=
  {| self := self s; env := tick (record_embed_call query (tick (env s))) |}.

Section Outcomes.

Variable cosine_similarity : vec -> vec -> float.
Variable sorting : sorter.

(** One candidate per vector, made from the document at its index. *)
Definition scored (docs : list document) (query_embedding : vec)
           (embs : list vec) : list candidate :=
  map (fun p => make_candidate (fst p)
                  (cosine_similarity query_embedding (snd p)))
      (combine docs embs).

(** What [vector_search] returns on an engine. *)
Definition ranking (e : engine) (query_embedding : vec) (k : Z)
  : exn + list candidate :=
  match score_loop cosine_similarity (documents e) query_embedding 0
                   (embeddings e) [] with
  | inl x => inl x
  | inr similarities =>
      inr (slice_to (sort_by sorting sort_key tuple_lt similarities) k)
  end.

End Outcomes.

(** The number of ten-thousandths a score is normalised to. *)
Definition level (x : float) : Z :=
  match x with
  | S754_finite false m e => if ltb x one then scale_round m e 4 else 10000
  | S754_infinity false => 10000
  | _ => 0
  end.

(** From [z] on, for [fuel] integers, the floats [n / 10000] grow
    strictly, are canonical doubles and normalise to themselves;
    [prev] is the float before. *)
Fixpoint steps4_ok (prev : float) (z : Z) (fuel : nat) : bool :=
  match fuel with
  | O => true
  | S fuel' =>
      let cur := rounded4 z in
      ltb prev cur && valid cur && (level cur =? z)
      && steps4_ok cur (z + 1) fuel'
  end.

(** ** More inputs for the examples *)

Module Cases.


(** A world without the corpus file. *)
Definition no_corpus : world :=
  {| data_file := None; cache_file := Some Example.vectors;
     clock_reads := 0; embed_calls := []; rerank_calls := 0 |}.

(** One document for three vectors. *)
Definition short : state :=
  {| self := {| documents := [Example.doc 1 "alpha"];
                embeddings := Example.vectors |};
     env := Example.outside |}.

(** The corpus of the examples loaded in another order, each document
    with its vector. *)
Definition shuffled : state :=
  {| self := {| documents := [Example.doc 3 "gamma"; Example.doc 1 "alpha";
                              Example.doc 2 "beta"];
                embeddings := [[of_Z 0; of_Z 5]; [of_Z 1; of_Z 1];
                               [of_Z 2; of_Z 0]] |};
     env := Example.outside |}.


(** A clock that stands still, and a world in which it has been read
    and the generator called before. *)
Definition still (n : nat) : float := of_Z 7.

Definition later : state :=
  {| self := self Example.loaded;
     env := {| data_file := None; cache_file := None; clock_reads := 5;
               embed_calls := [str_of "beta"]; rerank_calls := 0 |} |}.

End Cases.

(** ** Facts on floats *)





Lemma digits2_pos_bound m : Zpos m < 2 ^ Zpos (digits2_pos m).
Proof.
  induction m as [m IH|m IH|]; simpl digits2_pos.
  - rewrite Pos2Z.inj_succ, Z.pow_succ_r by lia. lia.
  - rewrite Pos2Z.inj_succ, Z.pow_succ_r by lia. lia.
  - reflexivity.
Qed.

Lemma valid_mantissa s m e :
  valid (S754_finite s m e) = true -> Zpos m < 2 ^ 53.
Proof.
  unfold valid, valid_binary, bounded, canonical_mantissa, fexp, emin,
    prec, emax.
  intros H. apply andb_prop in H as [H _]. apply Z.eqb_eq in H.
  pose proof (digits2_pos_bound m) as Hm.
  assert (Hd : Zpos (digits2_pos m) <= 53) by lia.
  eapply Z.lt_le_trans; [exact Hm|].
  apply Z.pow_le_mono_r; lia.
Qed.

Lemma round_half_even_bound p q c :
  0 < q -> 0 <= p -> p < c * q -> 0 <= round_half_even p q <= c.
Proof.
  intros Hq Hp Hc. unfold round_half_even.
  pose proof (Z_div_mod p q ltac:(lia)) as Hdm.
  destruct (Z.div_eucl p q) as [d r]. destruct Hdm as [Hpq Hr].
  assert (0 <= d) by nia.
  assert (d < c) by nia.
  destruct (2 * r ?= q); [destruct (Z.even d)| |]; lia.
Qed.

(** ** Facts on the order of floats *)

Lemma lex_compare_lt a b : lex_compare a b = Lt <-> below a b.
Proof.
  destruct a as [[a1 a2] a3], b as [[b1 b2] b3]; simpl.
  destruct (Z.compare_spec a1 b1), (Z.compare_spec a2 b2),
    (Z.compare_spec a3 b3); split; intros Hc; try discriminate; try lia;
    reflexivity.
Qed.

Lemma lex_compare_eq a b : lex_compare a b = Eq <-> a = b.
Proof.
  destruct a as [[a1 a2] a3], b as [[b1 b2] b3]; simpl.
  destruct (Z.compare_spec a1 b1), (Z.compare_spec a2 b2),
    (Z.compare_spec a3 b3); split; intros Hc; try discriminate;
    try (injection Hc; lia); subst; reflexivity.
Qed.

Lemma compare_place x y :
  isnan x = false -> isnan y = false ->
  SFcompare x y = Some (lex_compare (place x) (place y)).
Proof.
  destruct x as [sx|sx| |sx mx ex], y as [sy|sy| |sy my ey];
    try discriminate; intros _ _;
    try (destruct sx, sy; reflexivity);
    try (destruct sx; reflexivity); try (destruct sy; reflexivity).
  destruct sx, sy; simpl; try reflexivity.
  rewrite Z.compare_opp, (Z.compare_antisym ex ey).
  destruct (ex ?= ey); reflexivity.
Qed.

Lemma ltb_below x y :
  isnan x = false -> isnan y = false ->
  (ltb x y = true <-> below (place x) (place y)).
Proof.
  intros Hx Hy. unfold ltb, SFltb. rewrite (compare_place x y Hx Hy).
  rewrite <- lex_compare_lt.
  destruct (lex_compare (place x) (place y)); split; congruence.
Qed.

Lemma eqb_place x y :
  isnan x = false -> isnan y = false ->
  (eqb x y = true <-> place x = place y).
Proof.
  intros Hx Hy. unfold eqb, SFeqb. rewrite (compare_place x y Hx Hy).
  rewrite <- lex_compare_eq.
  destruct (lex_compare (place x) (place y)); split; congruence.
Qed.

Lemma isnan_neg x : isnan (neg x) = isnan x.
Proof. destruct x; reflexivity. Qed.

Lemma place_neg x :
  place (neg x) =
  let '(a, b, c) := place x in (- a, - b, - c).
Proof.
  destruct x as [s|s| |s m e]; try destruct s; simpl;
    rewrite ?Z.opp_involutive; reflexivity.
Qed.


(** ** Clamping and rounding of scores *)

Lemma ltb_finite m e m' e' :
  ltb (S754_finite false m e) (S754_finite false m' e') = true ->
  e < e' \/ (e = e' /\ Zpos m < Zpos m').
Proof.
  unfold ltb, SFltb, SFcompare.
  destruct (Z.compare_spec e e') as [He|He|He]; intros H.
  - right. split; [exact He|].
    destruct (Pos.compare_spec m m') as [Hm|Hm|Hm];
      change (PosDef.Pos.compare_cont Eq m m') with (Pos.compare m m') in H.
    + rewrite Hm, Pos.compare_refl in H. discriminate H.
    + exact Hm.
    + apply Pos.compare_gt_iff in Hm. rewrite Hm in H. discriminate H.
  - now left.
  - discriminate H.
Qed.

Lemma one_finite : one = S754_finite false 4503599627370496 (-52).
Proof. reflexivity. Qed.

Lemma pow_52 : 2 ^ 52 = Zpos 4503599627370496.
Proof. reflexivity. Qed.






(** ** Facts on strings *)

Lemma lstrip_spaces s : forallb is_space s = true -> lstrip s = [].
Proof.
  induction s as [|c s IH]; simpl; [reflexivity|].
  intros H. apply andb_prop in H as [Hc Hs]. rewrite Hc. now apply IH.
Qed.

Lemma lstrip_nil_spaces s : lstrip s = [] -> forallb is_space s = true.
Proof.
  induction s as [|c s IH]; simpl; [reflexivity|].
  destruct (is_space c); [exact IH|discriminate].
Qed.

Lemma lstrip_head s c t : lstrip s = c :: t -> is_space c = false.
Proof.
  induction s as [|d s IH]; simpl; [discriminate|].
  destruct (is_space d) eqn:Hd; [exact IH|].
  intros H. injection H as -> _. exact Hd.
Qed.

Lemma forallb_rev {A} (f : A -> bool) l : forallb f (rev l) = forallb f l.
Proof.
  induction l as [|a l IH]; simpl; [reflexivity|].
  rewrite forallb_app, IH. simpl. rewrite andb_true_r. apply andb_comm.
Qed.

(** The guard of [search] holds on the strings made of white space
    only, the empty one among them, and on no other. *)
Lemma blank_spaces query : blank query = forallb is_space query.
Proof.
  unfold blank, strip, rstrip.
  destruct query as [|c q]; [reflexivity|]. simpl str_is_empty at 1.
  rewrite orb_false_l.
  destruct (forallb is_space (c :: q)) eqn:Hall.
  - rewrite (lstrip_spaces _ Hall). reflexivity.
  - destruct (lstrip (c :: q)) as [|d t] eqn:Hl.
    + apply lstrip_nil_spaces in Hl. congruence.
    + pose proof (lstrip_head _ _ _ Hl) as Hd.
      destruct (rev (lstrip (rev (d :: t)))) as [|x r] eqn:Hr; [|reflexivity].
      apply (f_equal (@rev N)) in Hr. rewrite rev_involutive in Hr.
      simpl rev in Hr.
      apply lstrip_nil_spaces in Hr.
      change (rev t ++ [d]) with (rev (d :: t)) in Hr.
      rewrite forallb_rev in Hr. simpl in Hr. rewrite Hd in Hr. discriminate.
Qed.

(** ** Facts on printing *)

Lemma encodable_app a b : encodable (a ++ b) = encodable a && encodable b.
Proof. apply forallb_app. Qed.

Lemma digits_encodable d : encodable (digits d) = true.
Proof. induction d; simpl; auto. Qed.

Lemma str_of_int_encodable n : encodable (str_of_int n) = true.
Proof.
  unfold str_of_int. destruct (Z.to_int n); simpl; apply digits_encodable.
Qed.

Lemma loaded_message_encodable n : encodable (loaded_message n) = true.
Proof.
  unfold loaded_message.
  change (encodable (str_of_int (Z.of_nat n) ++ str_of " documents") = true).
  now rewrite encodable_app, str_of_int_encodable.
Qed.

Lemma ready_message_encodable n : encodable (ready_message n) = true.
Proof.
  unfold ready_message.
  change (encodable (str_of_int (Z.of_nat n)
                       ++ str_of " document embeddings") = true).
  now rewrite encodable_app, str_of_int_encodable.
Qed.

Lemma found_message_encodable n : encodable (found_message n) = true.
Proof.
  unfold found_message.
  change (encodable (str_of_int (Z.of_nat n) ++ str_of " candidates") = true).
  now rewrite encodable_app, str_of_int_encodable.
Qed.

Lemma completed_message_encodable n : encodable (completed_message n) = true.
Proof.
  unfold completed_message.
  change (encodable (str_of_int n ++ str_of "ms") = true).
  now rewrite encodable_app, str_of_int_encodable.
Qed.

(** The text of line 79 can be printed exactly when the query can. *)
Lemma searching_message_encodable query :
  encodable (searching_message query) = encodable query.
Proof.
  unfold searching_message.
  change (encodable (query ++ str_of "'") = encodable query).
  rewrite encodable_app. apply andb_true_r.
Qed.

Lemma py_print_run text s :
  py_print text s =
  (if encodable text then inr tt else inl UnicodeEncodeError, s).
Proof. unfold py_print. destruct (encodable text); reflexivity. Qed.

(** ** Facts on slices *)

Lemma slice_to_length {A} (l : list A) k :
  0 <= k -> Z.of_nat (List.length (slice_to l k)) <= k.
Proof.
  intros Hk. unfold slice_to.
  assert (Hneg : (k <? 0) = false) by (apply Z.ltb_ge; lia).
  rewrite Hneg, length_firstn. lia.
Qed.

Lemma slice_to_length_le {A} (l : list A) k :
  (List.length (slice_to l k) <= List.length l)%nat.
Proof.
  unfold slice_to. destruct (k <? 0); rewrite length_firstn; lia.
Qed.

Lemma slice_to_all {A} (l : list A) k :
  Z.of_nat (List.length l) <= k -> slice_to l k = l.
Proof.
  intros Hk. unfold slice_to.
  assert (Hneg : (k <? 0) = false) by (apply Z.ltb_ge; lia).
  rewrite Hneg. apply firstn_all2. lia.
Qed.

Lemma slice_to_map {A B} (f : A -> B) (l : list A) k :
  slice_to (map f l) k = map f (slice_to l k).
Proof.
  unfold slice_to. rewrite length_map.
  destruct (k <? 0); apply firstn_map.
Qed.

Lemma firstn_sorted {A} (R : A -> A -> Prop) n : forall l,
  StronglySorted R l -> StronglySorted R (firstn n l).
Proof.
  induction n as [|n IH]; intros l Hl; [constructor|].
  destruct l as [|a l]; [constructor|]. simpl.
  inversion Hl as [|? ? Hs Hall]; subst.
  constructor; [now apply IH|].
  rewrite Forall_forall in *. intros x Hx.
  apply Hall. rewrite <- (firstn_skipn n l). apply in_or_app. now left.
Qed.

Lemma slice_to_sorted {A} (R : A -> A -> Prop) (l : list A) k :
  StronglySorted R l -> StronglySorted R (slice_to l k).
Proof.
  intros Hl. unfold slice_to. destruct (k <? 0); now apply firstn_sorted.
Qed.

(** ** Facts on the sort *)

Section SortFacts.

Context {A K : Type} (key : A -> K) (lt : K -> K -> bool).

Lemma insert_sorted_perm x l :
  Permutation (x :: l) (insert_sorted key lt x l).
Proof.
  induction l as [|y l IH]; simpl; [reflexivity|].
  destruct (lt (key y) (key x)); [|reflexivity].
  rewrite perm_swap. now apply perm_skip.
Qed.

Lemma list_sort_perm l : Permutation l (list_sort key lt l).
Proof.
  induction l as [|x l IH]; simpl; [constructor|].
  rewrite <- insert_sorted_perm. now apply perm_skip.
Qed.

(** [good] picks the elements whose keys [lt] orders: there [lt] is
    asymmetric and its complement transitive. *)
Variable good : A -> Prop.
Let le (a b : A) : Prop := lt (key b) (key a) = false.

Hypothesis lt_asym : forall a b,
  good a -> good b -> lt (key a) (key b) = true -> lt (key b) (key a) = false.
Hypothesis le_trans : forall a b c,
  good a -> good b -> good c -> le a b -> le b c -> le a c.

Lemma insert_sorted_good x l :
  good x -> Forall good l -> Forall good (insert_sorted key lt x l).
Proof.
  intros Hx Hl. eapply Permutation_Forall; [apply insert_sorted_perm|].
  now constructor.
Qed.

Lemma insert_sorted_sorted x l :
  good x -> Forall good l ->
  StronglySorted le l -> StronglySorted le (insert_sorted key lt x l).
Proof.
  intros Hx. induction l as [|y l IH]; intros Hg Hs; simpl.
  - repeat constructor.
  - inversion Hs as [|? ? Hs' Hall]; subst.
    inversion Hg as [|? ? Hy Hg']; subst.
    destruct (lt (key y) (key x)) eqn:Hyx.
    + constructor; [now apply IH|].
      eapply Permutation_Forall; [apply insert_sorted_perm|].
      constructor; [|exact Hall].
      unfold le. now apply lt_asym.
    + constructor; [exact Hs|].
      constructor; [exact Hyx|].
      rewrite Forall_forall in *. intros z Hz.
      apply (le_trans x y z); auto.
Qed.

Lemma list_sort_good l : Forall good l -> Forall good (list_sort key lt l).
Proof.
  intros Hl. eapply Permutation_Forall; [apply list_sort_perm|exact Hl].
Qed.

Lemma list_sort_sorted l :
  Forall good l -> StronglySorted le (list_sort key lt l).
Proof.
  induction l as [|x l IH]; intros Hl; simpl; [constructor|].
  inversion Hl as [|? ? Hx Hl']; subst.
  apply insert_sorted_sorted; auto using list_sort_good.
Qed.

End SortFacts.

(** ** The order of the sort keys *)

Lemma below_irrefl p : ~ below p p.
Proof. destruct p as [[a b] c]. simpl. lia. Qed.

Lemma below_trans p q r : below p q -> below q r -> below p r.
Proof.
  destruct p as [[a b] c], q as [[a' b'] c'], r as [[a'' b''] c'']. simpl. lia.
Qed.

Lemma below_total p q : below p q \/ p = q \/ below q p.
Proof.
  destruct p as [[a b] c], q as [[a' b'] c']. simpl.
  destruct (Z.lt_total a a') as [?|[?|?]]; [lia| |lia].
  destruct (Z.lt_total b b') as [?|[?|?]]; [lia| |lia].
  destruct (Z.lt_total c c') as [?|[?|?]]; [lia| |lia].
  right; left. congruence.
Qed.

Lemma place_neg_eq x y : place (neg x) = place (neg y) <-> place x = place y.
Proof.
  rewrite !place_neg.
  destruct (place x) as [[a b] c], (place y) as [[a' b'] c'].
  rewrite !pair_equal_spec. lia.
Qed.

Lemma below_neg x y :
  below (place (neg x)) (place (neg y)) <-> below (place y) (place x).
Proof.
  rewrite !place_neg.
  destruct (place x) as [[a b] c], (place y) as [[a' b'] c']. simpl. lia.
Qed.

Lemma tuple_lt_sorts_before a b :
  numeric a -> numeric b ->
  (tuple_lt (sort_key a) (sort_key b) = true <-> sorts_before a b).
Proof.
  unfold numeric, sorts_before, tuple_lt, sort_key. simpl fst; simpl snd.
  intros Ha Hb.
  assert (Hna : isnan (neg (cand_score a)) = false) by now rewrite isnan_neg.
  assert (Hnb : isnan (neg (cand_score b)) = false) by now rewrite isnan_neg.
  pose proof (eqb_place _ _ Hna Hnb) as Heq. rewrite place_neg_eq in Heq.
  pose proof (ltb_below _ _ Hna Hnb) as Hlt. rewrite below_neg in Hlt.
  destruct (eqb (neg (cand_score a)) (neg (cand_score b))); simpl negb;
    cbv iota.
  - assert (Hp : place (cand_score a) = place (cand_score b)) by now apply Heq.
    destruct (Z.eqb_spec (cand_id a) (cand_id b)) as [Hid|Hid]; simpl negb;
      cbv iota.
    + split; [discriminate|]. intros [H|[_ H]]; [|lia].
      rewrite Hp in H. now apply below_irrefl in H.
    + rewrite Z.ltb_lt. split; [now right|].
      intros [H|[_ H]]; [|exact H].
      rewrite Hp in H. now apply below_irrefl in H.
  - rewrite Hlt. split; [now left|].
    intros [H|[H _]]; [exact H|].
    apply Heq in H. discriminate.
Qed.

Lemma sorts_before_asym a b : sorts_before a b -> ~ sorts_before b a.
Proof.
  unfold sorts_before. intros [H|[Hp H]] [H'|[Hp' H']].
  - exact (below_irrefl _ (below_trans _ _ _ H H')).
  - rewrite Hp' in H. exact (below_irrefl _ H).
  - rewrite Hp in H'. exact (below_irrefl _ H').
  - lia.
Qed.

Lemma sorts_before_negtrans a b c :
  ~ sorts_before b a -> ~ sorts_before c b -> ~ sorts_before c a.
Proof.
  unfold sorts_before. intros Hba Hcb Hca.
  destruct (below_total (place (cand_score a)) (place (cand_score b)))
    as [Hab|[Hab|Hab]].
  - apply Hba. now left.
  - destruct (below_total (place (cand_score b)) (place (cand_score c)))
      as [Hbc|[Hbc|Hbc]].
    + apply Hcb. now left.
    + destruct Hca as [H|[Hp H]].
      * rewrite Hab, Hbc in H. exact (below_irrefl _ H).
      * assert (~ cand_id b < cand_id a)
          by (intros ?; apply Hba; right; split; [congruence|lia]).
        assert (~ cand_id c < cand_id b)
          by (intros ?; apply Hcb; right; split; [congruence|lia]).
        lia.
    + destruct Hca as [H|[Hp H]].
      * rewrite Hab in H. exact (below_irrefl _ (below_trans _ _ _ H Hbc)).
      * rewrite <- Hab, <- Hp in Hbc. exact (below_irrefl _ Hbc).
  - destruct (below_total (place (cand_score b)) (place (cand_score c)))
      as [Hbc|[Hbc|Hbc]].
    + apply Hcb. now left.
    + destruct Hca as [H|[Hp H]].
      * rewrite <- Hbc in H. exact (below_irrefl _ (below_trans _ _ _ H Hab)).
      * rewrite <- Hp, <- Hbc in Hab. exact (below_irrefl _ Hab).
    + destruct Hca as [H|[Hp H]].
      * apply (below_irrefl (place (cand_score a))).
        exact (below_trans _ _ _ (below_trans _ _ _ H Hbc) Hab).
      * rewrite Hp in Hbc. exact (below_irrefl _ (below_trans _ _ _ Hbc Hab)).
Qed.

(** Between candidates with numeric scores, not sorting after is
    ranking before. *)
Lemma not_after_ranks_before a b :
  numeric a -> numeric b ->
  tuple_lt (sort_key b) (sort_key a) = false -> ranks_before a b.
Proof.
  intros Ha Hb Hlt. unfold ranks_before, gtb.
  assert (Hnot : ~ sorts_before b a).
  { intros H. apply (tuple_lt_sorts_before b a Hb Ha) in H. congruence. }
  rewrite (ltb_below _ _ Hb Ha), (eqb_place _ _ Ha Hb).
  unfold sorts_before in Hnot.
  destruct (below_total (place (cand_score a)) (place (cand_score b)))
    as [Hab|[Hab|Hab]].
  - exfalso. apply Hnot. now left.
  - right. split; [exact Hab|].
    destruct (Z.le_gt_cases (cand_id a) (cand_id b)) as [H|H]; [exact H|].
    exfalso. apply Hnot. right. split; [congruence|lia].
  - now left.
Qed.

(** The sorted candidates are ranked when every score is a number. *)
Lemma list_sort_ranked l :
  Forall numeric l -> ranked (list_sort sort_key tuple_lt l).
Proof.
  intros Hl. unfold ranked.
  assert (Hs : StronglySorted
                 (fun a b => tuple_lt (sort_key b) (sort_key a) = false)
                 (list_sort sort_key tuple_lt l)).
  { apply (list_sort_sorted sort_key tuple_lt numeric); [| |exact Hl].
    - intros a b Ha Hb H.
      apply (tuple_lt_sorts_before a b Ha Hb) in H.
      apply sorts_before_asym in H.
      destruct (tuple_lt (sort_key b) (sort_key a)) eqn:E; [|reflexivity].
      apply (tuple_lt_sorts_before b a Hb Ha) in E. contradiction.
    - intros a b c Ha Hb Hc Hab Hbc.
      destruct (tuple_lt (sort_key c) (sort_key a)) eqn:E; [|reflexivity].
      apply (tuple_lt_sorts_before c a Hc Ha) in E.
      exfalso. revert E. apply (sorts_before_negtrans a b c).
      + intros H. apply (tuple_lt_sorts_before b a Hb Ha) in H. congruence.
      + intros H. apply (tuple_lt_sorts_before c b Hc Hb) in H. congruence. }
  pose proof (list_sort_good sort_key tuple_lt numeric l Hl) as Hg.
  induction Hs as [|a l' Hs IH Hall]; [constructor|].
  inversion Hg as [|? ? Ha Hg']; subst.
  constructor; [now apply IH|].
  rewrite Forall_forall in *. intros b Hb.
  apply not_after_ranks_before; auto.
Qed.

(** [<] orders the sort keys of candidates whose scores are numbers. *)
Lemma numeric_consistent l :
  Forall numeric l -> consistent sort_key tuple_lt l.
Proof.
  intros Hl. rewrite Forall_forall in Hl. split.
  - intros a b Ha Hb H. apply Hl in Ha, Hb.
    apply (tuple_lt_sorts_before a b Ha Hb) in H.
    apply sorts_before_asym in H.
    destruct (tuple_lt (sort_key b) (sort_key a)) eqn:E; [|reflexivity].
    apply (tuple_lt_sorts_before b a Hb Ha) in E. contradiction.
  - intros a b c Ha Hb Hc Hab Hbc. apply Hl in Ha, Hb, Hc.
    destruct (tuple_lt (sort_key c) (sort_key a)) eqn:E; [|reflexivity].
    apply (tuple_lt_sorts_before c a Hc Ha) in E.
    exfalso. revert E. apply (sorts_before_negtrans a b c).
    + intros H. apply (tuple_lt_sorts_before b a Hb Ha) in H. congruence.
    + intros H. apply (tuple_lt_sorts_before c b Hc Hb) in H. congruence.
Qed.

(** On such candidates every sort returns the sorted and stable
    rearrangement. *)
Lemma sort_by_numeric (sorting : sorter) l :
  Forall numeric l ->
  sort_by sorting sort_key tuple_lt l = list_sort sort_key tuple_lt l.
Proof. intros Hl. now apply sort_orders, numeric_consistent. Qed.

Lemma sort_by_perm (sorting : sorter) (l : list candidate) :
  Permutation l (sort_by sorting sort_key tuple_lt l).
Proof. apply sort_permutes. Qed.

(** A score that is NaN ranks neither before nor after another: a
    ranked list of two candidates or more holds none. *)
Lemma ranked_no_nan l c :
  ranked l -> (2 <= List.length l)%nat -> In c l -> numeric c.
Proof.
  intros Hr Hlen Hc. destruct l as [|a [|b l]]; simpl in Hlen; try lia.
  inversion Hr as [|? ? Hs Hall]; subst.
  assert (Hpair : forall x y, ranks_before x y -> numeric x /\ numeric y).
  { intros x y. unfold ranks_before, numeric, gtb.
    destruct (cand_score x) as [?|?| |? ? ?], (cand_score y) as [?|?| |? ? ?];
      intros [H|[H _]]; try discriminate H; split; reflexivity. }
  rewrite Forall_forall in Hall.
  destruct Hc as [<-|Hc].
  - apply (Hpair a b). apply Hall. now left.
  - apply (Hpair a c). now apply Hall.
Qed.

(** ** What the methods compute *)

Section EngineFacts.

Variable get_embedding : str -> option vec.
Variable compute_document_embeddings : list document -> list vec.
Variable cosine_similarity : vec -> vec -> float.
Variable time_time : nat -> float.
Variable sorting : sorter.

Lemma slice_to_In {A} (l : list A) k x : In x (slice_to l k) -> In x l.
Proof.
  unfold slice_to. intros H.
  destruct (k <? 0);
    match type of H with
    | In _ (firstn ?n _) =>
        rewrite <- (firstn_skipn n l); apply in_or_app; now left
    end.
Qed.

Lemma skipn_nth_error {A} (l : list A) i d :
  nth_error l i = Some d -> skipn i l = d :: skipn (S i) l.
Proof.
  revert l. induction i as [|i IH]; intros [|a l] H; try discriminate.
  - injection H as ->. reflexivity.
  - simpl in H. simpl. now apply IH.
Qed.

(** The loop raises exactly when the vectors outnumber the documents
    left; otherwise it appends one candidate per vector. *)
Lemma score_loop_run docs q : forall embs i acc,
  (i <= List.length docs)%nat ->
  score_loop cosine_similarity docs q i embs acc =
  if (i + List.length embs <=? List.length docs)%nat
  then inr (acc ++ scored cosine_similarity (skipn i docs) q embs)
  else inl IndexError.
Proof.
  induction embs as [|e embs IH]; intros i acc Hi; simpl.
  - assert (H : (i + 0 <=? List.length docs)%nat = true)
      by (apply Nat.leb_le; lia).
    rewrite H. unfold scored.
    destruct (skipn i docs); simpl; now rewrite app_nil_r.
  - destruct (nth_error docs i) as [d|] eqn:Hd.
    + assert (Hlt : (i < List.length docs)%nat)
        by (apply nth_error_Some; congruence).
      rewrite IH by lia. rewrite (skipn_nth_error _ _ _ Hd).
      replace (S i + List.length embs)%nat
        with (i + S (List.length embs))%nat by lia.
      destruct (i + S (List.length embs) <=? List.length docs)%nat;
        [|reflexivity].
      unfold scored. simpl. now rewrite <- app_assoc.
    + apply nth_error_None in Hd.
      assert (H : (i + S (List.length embs) <=? List.length docs)%nat = false)
        by (apply Nat.leb_gt; lia).
      now rewrite H.
Qed.

Lemma ranking_run e q k :
  ranking cosine_similarity sorting e q k =
  if (List.length (embeddings e) <=? List.length (documents e))%nat
  then inr (slice_to
              (sort_by sorting sort_key tuple_lt
                 (scored cosine_similarity (documents e) q (embeddings e)))
              k)
  else inl IndexError.
Proof.
  unfold ranking. rewrite score_loop_run by lia. simpl.
  destruct (List.length (embeddings e) <=? List.length (documents e))%nat;
    reflexivity.
Qed.

Lemma vector_search_run q k s :
  vector_search cosine_similarity sorting q k s =
  (ranking cosine_similarity sorting (self s) q k, s).
Proof.
  unfold vector_search, ranking, bind, get_self, lift, ret, raise.
  destruct (score_loop cosine_similarity (documents (self s)) q 0
                       (embeddings (self s)) []);
    reflexivity.
Qed.

Lemma search_blank_run query k rerank rerank_k s :
  blank query = true ->
  search get_embedding cosine_similarity time_time sorting
         query k rerank rerank_k s =
  (inr (response [] false 0 (List.length (documents (self s)))),
   after_blank s).
Proof.
  intros Hb. unfold search, bind, call_time, get_env, with_env, ret, get_self.
  simpl. rewrite Hb. reflexivity.
Qed.

Lemma search_run query k rerank rerank_k s :
  blank query = false ->
  search get_embedding cosine_similarity time_time sorting
         query k rerank rerank_k s =
  if encodable query then
    match get_embedding query with
    | None => (inl EmbeddingUnavailable, after_call query s)
    | Some q =>
        match ranking cosine_similarity sorting (self s) q k with
        | inl x => (inl x, after_call query s)
        | inr candidates =>
            let results := if rerank then slice_to candidates rerank_k
                           else slice_to candidates k in
            match py_int (mul (sub (time_time (S (clock_reads (env s))))
                                   (time_time (clock_reads (env s))))
                              (of_Z 1000)) with
            | inl x => (inl x, after_search query s)
            | inr latency =>
                (inr (response (map format_result results) rerank latency
                               (List.length (documents (self s)))),
                 after_search query s)
            end
        end
    end
  else (inl UnicodeEncodeError, after_blank s).
Proof.
  intros Hb.
  unfold search, vector_search, ranking, bind, call_time,
    call_get_embedding, get_env, with_env, ret, raise, lift, get_self.
  simpl. rewrite Hb, py_print_run, searching_message_encodable.
  destruct (encodable query); [|reflexivity].
  destruct (get_embedding query) as [q|]; [|reflexivity]. simpl.
  destruct (score_loop cosine_similarity (documents (self s)) q 0
                       (embeddings (self s)) [])
    as [x|similarities]; simpl; [reflexivity|].
  rewrite (py_print_run (found_message _)), found_message_encodable.
  destruct (py_int _); [reflexivity|]. simpl.
  rewrite (py_print_run (completed_message _)), completed_message_encodable.
  reflexivity.
Qed.

Lemma scored_nth q : forall docs embs i,
  nth_error (scored cosine_similarity docs q embs) i =
  match nth_error docs i, nth_error embs i with
  | Some d, Some e => Some (make_candidate d (cosine_similarity q e))
  | _, _ => None
  end.
Proof.
  unfold scored.
  induction docs as [|d docs IH]; intros [|e embs] [|i]; simpl;
    try reflexivity.
  - destruct (nth_error docs i); reflexivity.
  - apply IH.
Qed.

Lemma scored_length q docs embs :
  List.length (scored cosine_similarity docs q embs) =
  Nat.min (List.length docs) (List.length embs).
Proof. unfold scored. now rewrite length_map, length_combine. Qed.

Lemma scored_numeric q docs embs :
  Forall (fun e => isnan (cosine_similarity q e) = false) embs ->
  Forall numeric (scored cosine_similarity docs q embs).
Proof.
  intros H. unfold scored. rewrite Forall_forall in *.
  intros c Hc. apply in_map_iff in Hc as ([d e] & <- & Hin).
  apply in_combine_r in Hin. unfold numeric. simpl. now apply H.
Qed.

Lemma ranking_length e q k l :
  0 <= k -> ranking cosine_similarity sorting e q k = inr l ->
  Z.of_nat (List.length l) <= k /\
  (List.length l <= List.length (documents e))%nat.
Proof.
  intros Hk. rewrite ranking_run.
  destruct (List.length (embeddings e) <=? List.length (documents e))%nat
    eqn:Hlen; [|discriminate].
  intros H. injection H as <-. split; [now apply slice_to_length|].
  etransitivity; [apply slice_to_length_le|].
  rewrite <- (Permutation_length (sort_by_perm sorting _)).
  rewrite scored_length. lia.
Qed.

Lemma make_candidate_of d similarity :
  candidate_of d similarity (make_candidate d similarity).
Proof. repeat split. Qed.

Lemma scored_from_documents q docs embs c :
  In c (scored cosine_similarity docs q embs) ->
  exists d e, In d docs /\ In e embs /\
              c = make_candidate d (cosine_similarity q e).
Proof.
  unfold scored. intros H. apply in_map_iff in H as ([d e] & <- & Hin).
  exists d, e. split; [eapply in_combine_l; eauto|].
  split; [eapply in_combine_r; eauto|reflexivity].
Qed.

(** X18: two calls of [vector_search] on the same corpus, embeddings
    and query vector return the same list, whatever else the world
    holds; and when no score is NaN the list is in descending order of
    score, equal scores in ascending order of id. *)
Theorem vector_search_ranked q k s :
  (forall s', self s' = self s ->
              fst (vector_search cosine_similarity sorting q k s') =
              fst (vector_search cosine_similarity sorting q k s)) /\
  (Forall (fun e => isnan (cosine_similarity q e) = false)
          (embeddings (self s)) ->
   forall l, fst (vector_search cosine_similarity sorting q k s) = inr l ->
         ranked l).
Proof.
  split.
  - intros s' Hs. rewrite !vector_search_run. simpl. now rewrite Hs.
  - intros Hnum l. rewrite vector_search_run, ranking_run. simpl.
    destruct (List.length (embeddings (self s))
              <=? List.length (documents (self s)))%nat; [|discriminate].
    intros H. injection H as <-.
    rewrite sort_by_numeric by now apply scored_numeric.
    apply slice_to_sorted, list_sort_ranked. now apply scored_numeric.
Qed.

(** C9: [vector_search] returns exactly when the vectors do not
    outnumber the documents, and raises [IndexError] otherwise; what
    it returns is the first [k] of a rearrangement of one candidate
    per vector; the candidate at index [i] carries the id, the content,
    the title and the source of the document at index [i] and the
    score of the vector at index [i], and so every returned candidate
    carries the id and the content of a document; with as many vectors
    as documents every document has its candidate. *)
Theorem vector_search_total_iff q k s :
  let docs := documents (self s) in
  let embs := embeddings (self s) in
  ((exists l, fst (vector_search cosine_similarity sorting q k s) = inr l) <->
   (List.length embs <= List.length docs)%nat) /\
  ((List.length docs < List.length embs)%nat ->
   fst (vector_search cosine_similarity sorting q k s) = inl IndexError) /\
  (forall l, fst (vector_search cosine_similarity sorting q k s) = inr l ->
     exists sims,
       score_loop cosine_similarity docs q 0 embs [] = inr sims /\
       l = slice_to (sort_by sorting sort_key tuple_lt sims) k /\
       Permutation sims (sort_by sorting sort_key tuple_lt sims) /\
       List.length sims = List.length embs /\
       (forall i c, nth_error sims i = Some c ->
          exists d e, nth_error docs i = Some d /\
                      nth_error embs i = Some e /\
                      candidate_of d (cosine_similarity q e) c) /\
       (forall c, In c l ->
          exists d e, In d docs /\ In e embs /\
                      candidate_of d (cosine_similarity q e) c)) /\
  (aligned (self s) ->
     exists sims,
       score_loop cosine_similarity docs q 0 embs [] = inr sims /\
       List.length sims = List.length docs /\
       forall i d, nth_error docs i = Some d ->
         exists e c, nth_error embs i = Some e /\
                     nth_error sims i = Some c /\
                     candidate_of d (cosine_similarity q e) c).
Proof.
  intros docs embs. rewrite vector_search_run. simpl fst.
  unfold ranking. fold docs embs.
  rewrite (score_loop_run docs q embs 0 []) by lia. simpl.
  destruct (List.length embs <=? List.length docs)%nat eqn:Hlen.
  - apply Nat.leb_le in Hlen. split; [|split; [|split]].
    + split; [intros _; exact Hlen|intros _; eexists; reflexivity].
    + intros H. lia.
    + intros l H. injection H as <-.
      exists (scored cosine_similarity docs q embs).
      split; [reflexivity|]. split; [reflexivity|].
      split; [apply sort_by_perm|].
      split; [rewrite scored_length; lia|]. split.
      * intros i c Hc. rewrite scored_nth in Hc.
        destruct (nth_error docs i) as [d|]; [|discriminate].
        destruct (nth_error embs i) as [e|]; [|discriminate].
        injection Hc as <-. exists d, e.
        split; [reflexivity|]. split; [reflexivity|].
        apply make_candidate_of.
      * intros c Hc. apply slice_to_In in Hc.
        apply (Permutation_in _ (Permutation_sym (sort_by_perm sorting _)))
          in Hc.
        apply scored_from_documents in Hc as (d & e & Hd & He & ->).
        exists d, e. split; [exact Hd|]. split; [exact He|].
        apply make_candidate_of.
    + intros Hal. unfold aligned in Hal. fold docs embs in Hal.
      exists (scored cosine_similarity docs q embs).
      split; [reflexivity|]. split; [rewrite scored_length; lia|].
      intros i d Hd.
      destruct (nth_error embs i) as [e|] eqn:He.
      * exists e, (make_candidate d (cosine_similarity q e)).
        split; [reflexivity|].
        split; [now rewrite scored_nth, Hd, He|apply make_candidate_of].
      * apply nth_error_None in He.
        assert (i < List.length docs)%nat
          by (apply nth_error_Some; congruence).
        lia.
  - apply Nat.leb_gt in Hlen. split; [|split; [|split]].
    + split; [intros [l H]; discriminate|intros H; lia].
    + intros _. reflexivity.
    + intros l H. discriminate.
    + intros Hal. unfold aligned in Hal. fold docs embs in Hal. lia.
Qed.

Lemma results_of_response rs b n t : results_of (response rs b n t) = Some rs.
Proof. reflexivity. Qed.

Lemma reranked_of_response rs b n t : reranked_of (response rs b n t) = Some b.
Proof. reflexivity. Qed.

(** C3: with [k] and [rerank_k] not negative, a response holds at most
    [min(k, rerank_k if rerank else k, totalDocs)] results. *)
Theorem search_topk_bound query k rerank rerank_k s resp :
  0 <= k -> 0 <= rerank_k ->
  fst (search get_embedding cosine_similarity time_time sorting
              query k rerank rerank_k s) = inr resp ->
  exists rs,
    results_of resp = Some rs /\
    Z.of_nat (List.length rs) <=
    Z.min k (Z.min (if rerank then rerank_k else k)
                   (Z.of_nat (List.length (documents (self s))))).
Proof.
  intros Hk Hrk. destruct (blank query) eqn:Hb.
  - rewrite (search_blank_run _ _ _ _ _ Hb). simpl fst.
    intros H. injection H as <-. exists []. split; [reflexivity|].
    simpl List.length. destruct rerank; lia.
  - rewrite (search_run _ _ _ _ _ Hb).
    destruct (encodable query); [|discriminate].
    destruct (get_embedding query) as [q|]; [|discriminate].
    destruct (ranking cosine_similarity sorting (self s) q k) as [x|candidates]
          eqn:Hr;
      [discriminate|].
    cbv zeta. destruct (py_int _) as [x|latency]; [discriminate|].
    simpl fst. intros H. injection H as <-.
    eexists. split; [apply results_of_response|].
    rewrite length_map.
    destruct (ranking_length _ _ _ _ Hk Hr) as [Hlk Hld].
    destruct rerank.
    + pose proof (slice_to_length candidates rerank_k Hrk).
      pose proof (slice_to_length_le candidates rerank_k). lia.
    + pose proof (slice_to_length candidates k Hk).
      pose proof (slice_to_length_le candidates k). lia.
Qed.

Lemma search_self query k rerank rerank_k s :
  self (snd (search get_embedding cosine_similarity time_time sorting
                    query k rerank rerank_k s)) = self s.
Proof.
  destruct (blank query) eqn:Hb.
  - now rewrite (search_blank_run _ _ _ _ _ Hb).
  - rewrite (search_run _ _ _ _ _ Hb).
    destruct (encodable query); [|reflexivity].
    destruct (get_embedding query) as [q|]; [|reflexivity].
    destruct (ranking cosine_similarity sorting (self s) q k); [reflexivity|].
    cbv zeta. destruct (py_int _); reflexivity.
Qed.

(** C8: a [search] call leaves the documents and the embeddings of
    the engine, and the corpus file and the cache outside it, as it
    found them; so does the [vector_search] within. *)
Theorem search_frame query k rerank rerank_k s :
  let s' := snd (search get_embedding cosine_similarity time_time sorting
                        query k rerank rerank_k s) in
  documents (self s') = documents (self s) /\
  embeddings (self s') = embeddings (self s) /\
  data_file (env s') = data_file (env s) /\
  cache_file (env s') = cache_file (env s) /\
  forall q, snd (vector_search cosine_similarity sorting q k s) = s.
Proof.
  cbv zeta. rewrite search_self. repeat split.
  - destruct (blank query) eqn:Hb.
    + now rewrite (search_blank_run _ _ _ _ _ Hb).
    + rewrite (search_run _ _ _ _ _ Hb).
      destruct (encodable query); [|reflexivity].
      destruct (get_embedding query) as [q|]; [|reflexivity].
      destruct (ranking cosine_similarity sorting (self s) q k); [reflexivity|].
      cbv zeta. destruct (py_int _); reflexivity.
  - destruct (blank query) eqn:Hb.
    + now rewrite (search_blank_run _ _ _ _ _ Hb).
    + rewrite (search_run _ _ _ _ _ Hb).
      destruct (encodable query); [|reflexivity].
      destruct (get_embedding query) as [q|]; [|reflexivity].
      destruct (ranking cosine_similarity sorting (self s) q k); [reflexivity|].
      cbv zeta. destruct (py_int _); reflexivity.
  - intros q. now rewrite vector_search_run.
Qed.

(** C4: on a query that is empty or made of white space only,
    [search] returns no results, [reranked] false, a latency of 0 and
    the number of documents, and the embedding generator is not
    called. *)
Theorem search_empty_query query k rerank rerank_k s :
  forallb is_space query = true ->
  let r := search get_embedding cosine_similarity time_time sorting
                  query k rerank rerank_k s in
  exists resp m,
    fst r = inr resp /\
    results_of resp = Some [] /\
    reranked_of resp = Some false /\
    field resp "metrics" = Some m /\
    field m "latency" = Some (VInt 0) /\
    field m "totalDocs" =
      Some (VInt (Z.of_nat (List.length (documents (self s))))) /\
    embed_calls (env (snd r)) = embed_calls (env s) /\
    self (snd r) = self s.
Proof.
  intros Hsp. cbv zeta. rewrite <- blank_spaces in Hsp.
  rewrite (search_blank_run _ _ _ _ _ Hsp).
  eexists. eexists. repeat split.
Qed.

(** A query that is not blank and can be printed reaches the embedding
    generator once. *)
Lemma search_calls_embedding query k rerank rerank_k s :
  blank query = false -> encodable query = true ->
  embed_calls
    (env (snd (search get_embedding cosine_similarity time_time sorting
                      query k rerank rerank_k s))) =
  embed_calls (env s) ++ [query].
Proof.
  intros Hb He. rewrite (search_run _ _ _ _ _ Hb), He.
  destruct (get_embedding query) as [q|]; [|reflexivity].
  destruct (ranking cosine_similarity sorting (self s) q k); [reflexivity|].
  cbv zeta. destruct (py_int _); reflexivity.
Qed.

Lemma search_rerank_calls query k rerank rerank_k s :
  rerank_calls (env (snd (search get_embedding cosine_similarity time_time
        sorting
                                 query k rerank rerank_k s))) =
  rerank_calls (env s).
Proof.
  destruct (blank query) eqn:Hb.
  - now rewrite (search_blank_run _ _ _ _ _ Hb).
  - rewrite (search_run _ _ _ _ _ Hb).
    destruct (encodable query); [|reflexivity].
    destruct (get_embedding query) as [q|]; [|reflexivity].
    destruct (ranking cosine_similarity sorting (self s) q k); [reflexivity|].
    cbv zeta. destruct (py_int _); reflexivity.
Qed.

(** C5: the response of a query that is not blank carries the
    requested [rerank] flag; when it is true the results are the first
    [rerank_k] of the candidates [vector_search] returned, formatted,
    and the re-ranker has not been called. *)
Theorem search_reranked_flag query k rerank rerank_k s resp :
  blank query = false ->
  fst (search get_embedding cosine_similarity time_time sorting
              query k rerank rerank_k s) = inr resp ->
  reranked_of resp = Some rerank /\
  (exists q candidates,
     get_embedding query = Some q /\
     fst (vector_search cosine_similarity sorting q k s) = inr candidates /\
     (rerank = true ->
      results_of resp =
      Some (map format_result (slice_to candidates rerank_k)))) /\
  rerank_calls (env (snd (search get_embedding cosine_similarity time_time
        sorting
                                 query k rerank rerank_k s))) =
  rerank_calls (env s).
Proof.
  intros Hb Hr. split; [|split; [|apply search_rerank_calls]].
  - rewrite (search_run _ _ _ _ _ Hb) in Hr.
    destruct (encodable query); [|discriminate].
    destruct (get_embedding query) as [q|]; [|discriminate].
    destruct (ranking cosine_similarity sorting (self s) q k); [discriminate|].
    cbv zeta in Hr. destruct (py_int _); [discriminate|].
    injection Hr as <-. apply reranked_of_response.
  - rewrite (search_run _ _ _ _ _ Hb) in Hr.
    destruct (encodable query); [|discriminate].
    destruct (get_embedding query) as [q|]; [|discriminate].
    exists q. rewrite vector_search_run. simpl fst.
    destruct (ranking cosine_similarity sorting (self s) q k) as [x|candidates];
      [discriminate|].
    exists candidates. split; [reflexivity|]. split; [reflexivity|].
    intros ->. cbv zeta in Hr. destruct (py_int _); [discriminate|].
    injection Hr as <-. apply results_of_response.
Qed.

(** C10: for a query that is not blank and [0 <= rerank_k <= k], the
    results with [rerank] are the first [rerank_k] of the results
    without it; a call that raises does so either way; the re-ranker
    is not called. *)
Theorem rerank_is_truncation query k rerank_k s :
  blank query = false -> 0 <= rerank_k -> rerank_k <= k ->
  returned_results
    (search get_embedding cosine_similarity time_time sorting
            query k true rerank_k s) =
  option_map
    (fun l => slice_to l rerank_k)
    (returned_results
       (search get_embedding cosine_similarity time_time sorting
               query k false rerank_k s)) /\
  rerank_calls
    (env (snd (search get_embedding cosine_similarity time_time sorting
                      query k true rerank_k s))) =
  rerank_calls (env s).
Proof.
  intros Hb Hrk Hk. split; [|apply search_rerank_calls].
  rewrite !(search_run _ _ _ _ _ Hb).
  destruct (encodable query); [|reflexivity].
  destruct (get_embedding query) as [q|]; [|reflexivity].
  destruct (ranking cosine_similarity sorting (self s) q k) as [x|candidates]
        eqn:Hr;
    [reflexivity|].
  cbv zeta. destruct (py_int _) as [x|latency]; [reflexivity|].
  change (Some (map format_result (slice_to candidates rerank_k)) =
          Some (slice_to (map format_result (slice_to candidates k))
                         rerank_k)).
  f_equal.
  assert (Hk0 : 0 <= k) by lia.
  destruct (ranking_length _ _ _ _ Hk0 Hr) as [Hlk _].
  rewrite (slice_to_all candidates k Hlk). symmetry. apply slice_to_map.
Qed.

Lemma format_result_shape r : result_shape (format_result r).
Proof.
  unfold result_shape, format_result. simpl.
  repeat esplit.
Qed.

Lemma response_code_shape rs b n t :
  Forall result_shape rs -> code_response_shape (response rs b n t).
Proof.
  intros Hrs. unfold code_response_shape, response_shape, response. simpl.
  split; [reflexivity|]. split; [exists rs; split; [reflexivity|exact Hrs]|].
  repeat esplit.
Qed.

(** C6 (as amended): a response has the fields [results], [reranked]
    and [metrics]; each result has [id], [score], [content] and
    [metadata] with [title] and [source]; [metrics] has [latency] and
    [totalDocs]. *)
Theorem search_response_shape query k rerank rerank_k s resp :
  fst (search get_embedding cosine_similarity time_time sorting
              query k rerank rerank_k s) = inr resp ->
  code_response_shape resp.
Proof.
  destruct (blank query) eqn:Hb.
  - rewrite (search_blank_run _ _ _ _ _ Hb). simpl fst.
    intros H. injection H as <-. apply response_code_shape. constructor.
  - rewrite (search_run _ _ _ _ _ Hb).
    destruct (encodable query); [|discriminate].
    destruct (get_embedding query) as [q|]; [|discriminate].
    destruct (ranking cosine_similarity sorting (self s) q k); [discriminate|].
    cbv zeta. destruct (py_int _); [discriminate|].
    simpl fst. intros H. injection H as <-. apply response_code_shape.
    apply Forall_forall. intros r Hr.
    apply in_map_iff in Hr as (c & <- & _). apply format_result_shape.
Qed.



Lemma init_run s0 :
  init compute_document_embeddings s0 =
  match data_file (env s0) with
  | None =>
      (inl FileNotFoundError,
       {| self := {| documents := []; embeddings := [] |}; env := env s0 |})
  | Some d =>
      match cache_file (env s0) with
      | Some e =>
          (inr tt, {| self := {| documents := d; embeddings := e |};
                      env := env s0 |})
      | None =>
          (inr tt,
           {| self := {| documents := d;
                         embeddings := compute_document_embeddings d |};
              env := write_cache (compute_document_embeddings d) (env s0) |})
      end
  end.
Proof.
  unfold init, load_documents, load_or_compute_embeddings, load_embeddings,
    save_embeddings, bind, set_documents, set_embeddings, get_env, with_env,
    get_self, ret, raise.
  simpl. destruct (data_file (env s0)) as [d|]; [|reflexivity].
  rewrite (py_print_run (loaded_message _)), loaded_message_encodable. simpl.
  destruct (cache_file (env s0)); simpl;
    rewrite (py_print_run (ready_message _)), ready_message_encodable;
    reflexivity.
Qed.

(** C7 (as amended): after initialisation the engine holds the
    documents of the corpus file, and as embeddings the cached
    sequence when there is one, else the sequence computed from the
    documents; when the computation gives one vector per document and
    a cached sequence is as long as the corpus, the two sequences have
    the same length in every state reached by [search] calls from
    there. *)
Theorem alignment_after_init w0 s :
  (forall d, List.length (compute_document_embeddings d) = List.length d) ->
  (forall e d, cache_file w0 = Some e -> data_file w0 = Some d ->
               List.length e = List.length d) ->
  reachable get_embedding compute_document_embeddings cosine_similarity
            time_time sorting w0 s ->
  aligned (self s) /\
  data_file w0 = Some (documents (self s)) /\
  embeddings (self s) =
    match cache_file w0 with
    | Some e => e
    | None => compute_document_embeddings (documents (self s))
    end.
Proof.
  intros Hcompute Hcache Hreach.
  induction Hreach as [s0 s Hw Hinit|s query k rerank rerank_k Hreach IH].
  - rewrite init_run in Hinit. subst w0.
    destruct (data_file (env s0)) as [d|] eqn:Hd; [|discriminate].
    destruct (cache_file (env s0)) as [e|] eqn:He;
      injection Hinit as <-; unfold aligned; simpl; repeat split.
    + now apply Hcache.
    + apply Hcompute.
  - unfold aligned in *. rewrite search_self. exact IH.
Qed.

End EngineFacts.

(** ** The properties on the example corpus *)

(** Witness of X18: the three documents come out as 2, 1, 3, ranked. *)
Lemma vector_search_ranked_witness :
  exists l,
    fst (vector_search cosine_similarity_spec insertion_sorter
          Example.query_vector 3
                       Example.loaded) = inr l /\
    map cand_id l = [2; 1; 3] /\ ranked l.
Proof.
  eexists. split; [vm_compute; reflexivity|]. split; [reflexivity|].
  apply (proj2 (vector_search_ranked cosine_similarity_spec insertion_sorter
                  Example.query_vector 3 Example.loaded)).
  - repeat constructor.
  - vm_compute. reflexivity.
Defined.

(** C1: on the corpus of the examples with a NaN component in the
    second vector, the scores of the three documents are 0.7071...,
    NaN and 1.0; whatever the sort of the interpreter does with them,
    [vector_search] returns the three candidates in an order that is
    not descending by score: no arrangement of them is. *)
Theorem vector_search_nan_unranked (sorting : sorter) :
  exists l,
    fst (vector_search cosine_similarity_spec sorting Example.query_vector 3
                       Example.loaded_nan) = inr l /\
    Permutation (scored cosine_similarity_spec Example.corpus
                        Example.query_vector Example.vectors_nan) l /\
    map (fun c => (cand_id c, isnan (cand_score c)))
        (scored cosine_similarity_spec Example.corpus
                Example.query_vector Example.vectors_nan) =
    [(1, false); (2, true); (3, false)] /\
    ~ ranked l.
Proof.
  set (sims := scored cosine_similarity_spec Example.corpus
                      Example.query_vector Example.vectors_nan).
  pose proof (sort_by_perm sorting sims) as Hperm.
  assert (Hlen : List.length (sort_by sorting sort_key tuple_lt sims) = 3%nat)
    by (rewrite <- (Permutation_length Hperm); reflexivity).
  exists (sort_by sorting sort_key tuple_lt sims).
  split.
  - rewrite vector_search_run, ranking_run. simpl fst.
    change (documents (self Example.loaded_nan)) with Example.corpus.
    change (embeddings (self Example.loaded_nan)) with Example.vectors_nan.
    fold sims. simpl Nat.leb. cbv iota. f_equal.
    apply slice_to_all. rewrite Hlen. simpl. lia.
  - split; [exact Hperm|]. split; [vm_compute; reflexivity|].
    intros Hr.
    assert (Hc : exists c, nth_error sims 1 = Some c /\
                           isnan (cand_score c) = true).
    { eexists. split; vm_compute; reflexivity. }
    destruct Hc as (c & Hn & Hnan). apply nth_error_In in Hn.
    apply (Permutation_in _ Hperm) in Hn.
    pose proof (ranked_no_nan _ c Hr ltac:(rewrite Hlen; lia) Hn) as Hnum.
    unfold numeric in Hnum. congruence.
Qed.

(** With the insertion sort for [list.sort] the list comes back in the
    order of the corpus, 1, 2, 3: document 1 (score 0.7071...) before
    document 3 (score 1.0). *)
Example nan_score_keeps_corpus_order :
  exists l,
    fst (vector_search cosine_similarity_spec insertion_sorter
                       Example.query_vector 3 Example.loaded_nan) = inr l /\
    map cand_id l = [1; 2; 3] /\
    map (fun c => isnan (cand_score c)) l = [false; true; false] /\
    map (fun c => normalize_score (Some (cand_score c))) l =
    [decimal4 7071; zero; one].
Proof.
  eexists. split; [vm_compute; reflexivity|]. repeat split.
Qed.


(** Witness of C3: five asked, re-ranking to two, three documents. *)
Lemma search_topk_bound_witness :
  exists resp rs,
    fst (Example.run_search (str_of "alpha") 5 true 2) = inr resp /\
    results_of resp = Some rs /\
    Z.of_nat (List.length rs) <= Z.min 5 (Z.min 2 3).
Proof.
  eexists.
  destruct (search_topk_bound
              Example.embed cosine_similarity_spec Example.clock
                    insertion_sorter
              (str_of "alpha") 5 true 2 Example.loaded _
              ltac:(lia) ltac:(lia) ltac:(vm_compute; reflexivity))
    as (rs & Hrs & Hlen).
  exists rs. split; [reflexivity|]. split; [exact Hrs|exact Hlen].
Defined.

(** Witness of C4: three spaces. *)
Lemma search_empty_query_witness :
  exists resp,
    fst (Example.run_search (str_of "   ") 5 true 3) = inr resp /\
    results_of resp = Some [] /\ reranked_of resp = Some false /\
    embed_calls (env (snd (Example.run_search (str_of "   ") 5 true 3))) = [].
Proof.
  destruct (search_empty_query
              Example.embed cosine_similarity_spec Example.clock
                    insertion_sorter
              (str_of "   ") 5 true 3 Example.loaded eq_refl)
    as (resp & m & Hresp & Hrs & Hflag & _ & _ & _ & Hcalls & _).
  exists resp. repeat split; assumption.
Defined.

(** Witness of C5: re-ranking asked for, two of the three kept. *)
Lemma search_reranked_flag_witness :
  exists resp,
    fst (Example.run_search (str_of "alpha") 3 true 2) = inr resp /\
    reranked_of resp = Some true /\
    option_map (map id_of) (results_of resp) = Some [Some 2; Some 1].
Proof.
  eexists. split; [vm_compute; reflexivity|].
  split; [|reflexivity].
  apply (search_reranked_flag
           Example.embed cosine_similarity_spec Example.clock insertion_sorter
           (str_of "alpha") 3 true 2 Example.loaded);
    vm_compute; reflexivity.
Defined.

(** Counterexample to C6 as stated: the metrics of a response have no
    field [latencyMs]. *)
Lemma search_response_not_spec_shape :
  exists resp,
    fst (Example.run_search (str_of "alpha") 3 false 3) = inr resp /\
    ~ spec_response_shape resp.
Proof.
  eexists. split; [vm_compute; reflexivity|].
  intros (_ & _ & _ & m & Hm & Hkeys & _).
  vm_compute in Hm. injection Hm as <-. vm_compute in Hkeys.
  discriminate Hkeys.
Qed.

(** Witness of C6. *)
Lemma search_response_shape_witness :
  exists resp,
    fst (Example.run_search (str_of "alpha") 3 false 3) = inr resp /\
    code_response_shape resp.
Proof.
  eexists. split; [vm_compute; reflexivity|].
  apply (search_response_shape
           Example.embed cosine_similarity_spec Example.clock insertion_sorter
           (str_of "alpha") 3 false 3 Example.loaded).
  vm_compute. reflexivity.
Defined.

(** Counterexample to C7 as stated: a cache written for two documents
    and a corpus of three leave the engine with two vectors and three
    documents. *)
Lemma stale_cache_misaligned :
  exists s,
    reachable Example.embed Example.embed_documents cosine_similarity_spec
              Example.clock insertion_sorter Example.stale s /\
    List.length (documents (self s)) = 3%nat /\
    List.length (embeddings (self s)) = 2%nat /\
    ~ aligned (self s).
Proof.
  eexists. split.
  - apply (reach_init _ _ _ _ _ _ (Example.unborn Example.stale));
      [reflexivity|vm_compute; reflexivity].
  - split; [reflexivity|]. split; [reflexivity|].
    unfold aligned. simpl. discriminate.
Qed.

(** Witness of C7: a cache of three vectors for the three documents;
    after [__init__] and a search the two sequences are as long as
    each other. *)
Lemma alignment_after_init_witness :
  exists s,
    reachable Example.embed Example.embed_documents cosine_similarity_spec
              Example.clock insertion_sorter Example.outside s /\
    embed_calls (env s) = [str_of "alpha"] /\
    embeddings (self s) = Example.vectors /\
    aligned (self s).
Proof.
  eexists.
  assert (Hreach :
    reachable Example.embed Example.embed_documents cosine_similarity_spec
      Example.clock insertion_sorter Example.outside
      (snd (search Example.embed cosine_similarity_spec Example.clock
            insertion_sorter
              (str_of "alpha") 3 true 3
              (snd (init Example.embed_documents
                         (Example.unborn Example.outside)))))).
  { apply reach_search.
    apply (reach_init _ _ _ _ _ _ (Example.unborn Example.outside));
      [reflexivity|vm_compute; reflexivity]. }
  split; [exact Hreach|]. split; [reflexivity|]. split; [reflexivity|].
  apply (alignment_after_init
           Example.embed Example.embed_documents cosine_similarity_spec
           Example.clock insertion_sorter Example.outside _);
    [| |exact Hreach].
  - intros d. apply length_map.
  - intros e d He Hd. injection He as <-. injection Hd as <-. reflexivity.
Defined.

(** Witness of C9: three vectors for three documents; the candidates
    carry the ids and the contents of the corpus, in its order. *)
Lemma vector_search_total_iff_witness :
  exists sims,
    score_loop cosine_similarity_spec Example.corpus Example.query_vector
               0 Example.vectors [] = inr sims /\
    List.length sims = 3%nat /\
    map cand_id sims = [1; 2; 3] /\
    map cand_content sims = [str_of "alpha"; str_of "beta"; str_of "gamma"].
Proof.
  destruct (vector_search_total_iff cosine_similarity_spec insertion_sorter
              Example.query_vector 3 Example.loaded)
    as (_ & _ & _ & H).
  destruct (H eq_refl) as (sims & Hs & Hl & Hall).
  exists sims. split; [exact Hs|]. split; [exact Hl|].
  destruct (Hall 0%nat _ eq_refl) as (e0 & c0 & _ & H0 & Hid0 & _ & Hc0 & _).
  destruct (Hall 1%nat _ eq_refl) as (e1 & c1 & _ & H1 & Hid1 & _ & Hc1 & _).
  destruct (Hall 2%nat _ eq_refl) as (e2 & c2 & _ & H2 & Hid2 & _ & Hc2 & _).
  destruct sims as [|a0 [|a1 [|a2 [|a3 sims]]]]; try discriminate Hl.
  simpl in H0, H1, H2.
  injection H0 as ->. injection H1 as ->. injection H2 as ->.
  simpl. rewrite Hid0, Hid1, Hid2, Hc0, Hc1, Hc2. split; reflexivity.
Defined.

(** Witness of C10. *)
Lemma rerank_is_truncation_witness :
  returned_results (Example.run_search (str_of "alpha") 3 true 2) =
  option_map (fun l => slice_to l 2)
             (returned_results (Example.run_search (str_of "alpha") 3 false 2))
  /\ option_map (@List.length value)
       (returned_results (Example.run_search (str_of "alpha") 3 true 2)) =
     Some 2%nat.
Proof.
  split; [|reflexivity].
  apply (rerank_is_truncation
           Example.embed cosine_similarity_spec Example.clock insertion_sorter
           (str_of "alpha") 3 2 Example.loaded); [reflexivity|lia|lia].
Defined.

(** The end-to-end example of the spec: three documents, the second
    the most similar to the query, the first next, the third
    orthogonal; without re-ranking they come out as 2, 1, 3, the last
    with score 0, and [totalDocs] is 3. *)
Example end_to_end :
  exists resp rs m,
    fst (Example.run_search (str_of "alpha") 3 false 3) = inr resp /\
    results_of resp = Some rs /\
    map id_of rs = [Some 2; Some 1; Some 3] /\
    map score_of rs = [Some one; Some (decimal4 7071); Some zero] /\
    field resp "metrics" = Some m /\
    field m "totalDocs" = Some (VInt 3).
Proof.
  eexists. eexists. eexists.
  split; [vm_compute; reflexivity|]. repeat split.
Qed.

(** Without a cache [__init__] computes one vector per document and
    writes the cache. *)
Example init_without_cache :
  let s := snd (init Example.embed_documents (Example.unborn Example.fresh)) in
  List.length (embeddings (self s)) = 3%nat /\
  cache_file (env s) = Some (embeddings (self s)).
Proof. split; reflexivity. Qed.

(** A negative [k] is outside the contract of [search]: [l[:k]] then
    counts from the end; with [k = -1], [vector_search] keeps two of
    the three documents and [search] one of those. *)
Example negative_k_counts_from_the_end :
  option_map (@List.length value)
    (returned_results (Example.run_search (str_of "alpha") (-1) false 3)) =
  Some 1%nat /\
  option_map (@List.length candidate)
    (match fst (vector_search cosine_similarity_spec insertion_sorter
          Example.query_vector
                              (-1) Example.loaded) with
     | inr l => Some l
     | inl _ => None
     end) = Some 2%nat.
Proof. split; reflexivity. Qed.

(** A cache longer than the corpus makes every search raise. *)
Example more_vectors_than_documents :
  fst (search Example.embed cosine_similarity_spec Example.clock
        insertion_sorter
              (str_of "alpha") 3 true 3
              {| self := {| documents := [Example.doc 1 "alpha"];
                            embeddings := Example.vectors |};
                 env := Example.outside |}) = inl IndexError.
Proof. reflexivity. Qed.

(** ** Further properties of the engine *)

Lemma slice_to_exact_length {A} (l : list A) k :
  Z.of_nat (List.length (slice_to l k)) =
  if k <? 0 then Z.max 0 (Z.of_nat (List.length l) + k)
  else Z.min k (Z.of_nat (List.length l)).
Proof.
  unfold slice_to. destruct (k <? 0) eqn:Hk; rewrite length_firstn.
  - apply Z.ltb_lt in Hk. lia.
  - apply Z.ltb_ge in Hk. lia.
Qed.

Lemma slice_to_slice_to {A} (l : list A) k k' :
  0 <= k -> k <= k' -> slice_to (slice_to l k') k = slice_to l k.
Proof.
  intros Hk Hk'. unfold slice_to.
  assert (H1 : (k <? 0) = false) by (apply Z.ltb_ge; lia).
  assert (H2 : (k' <? 0) = false) by (apply Z.ltb_ge; lia).
  rewrite H1, H2, firstn_firstn. f_equal. lia.
Qed.




Section MoreEngineFacts.

Variable get_embedding : str -> option vec.
Variable compute_document_embeddings : list document -> list vec.
Variable cosine_similarity : vec -> vec -> float.
Variable time_time : nat -> float.
Variable sorting : sorter.

(** X1: a query that holds a code point other than white space, and
    no surrogate code point, is handed to the embedding generator
    once, as it was given (not stripped), whether or not the search
    then succeeds. *)
Theorem search_embeds_query_unstripped query k rerank rerank_k s c :
  In c query -> is_space c = false -> encodable query = true ->
  embed_calls
    (env (snd (search get_embedding cosine_similarity time_time sorting
                      query k rerank rerank_k s))) =
  embed_calls (env s) ++ [query].
Proof.
  intros Hin Hc He. apply search_calls_embedding; [|exact He].
  rewrite blank_spaces.
  destruct (forallb is_space query) eqn:Hall; [|reflexivity].
  rewrite forallb_forall in Hall. rewrite (Hall c Hin) in Hc. discriminate.
Qed.




Lemma ranking_exact_length e q k l :
  ranking cosine_similarity sorting e q k = inr l ->
  Z.of_nat (List.length l) =
  if k <? 0
  then Z.max 0 (Z.of_nat (List.length (embeddings e)) + k)
  else Z.min k (Z.of_nat (List.length (embeddings e))).
Proof.
  rewrite ranking_run.
  destruct (List.length (embeddings e) <=? List.length (documents e))%nat
    eqn:Hlen; [|discriminate].
  apply Nat.leb_le in Hlen. intros H. injection H as <-.
  rewrite slice_to_exact_length.
  rewrite <- (Permutation_length (sort_by_perm sorting _)).
  rewrite scored_length.
  replace (Nat.min (List.length (documents e)) (List.length (embeddings e)))
    with (List.length (embeddings e)) by lia.
  reflexivity.
Qed.

(** X4: [vector_search] returns [min(k, n)] candidates for [k >= 0]
    and [max(0, n + k)] for [k < 0], [n] being the number of vectors:
    none for [k = 0], all but the last [-k] for a negative [k]. *)
Theorem vector_search_length q k s l :
  fst (vector_search cosine_similarity sorting q k s) = inr l ->
  Z.of_nat (List.length l) =
  if k <? 0
  then Z.max 0 (Z.of_nat (List.length (embeddings (self s))) + k)
  else Z.min k (Z.of_nat (List.length (embeddings (self s)))).
Proof.
  rewrite vector_search_run. simpl fst. apply ranking_exact_length.
Qed.

(** X5: with [k] and [rerank_k] not negative, the response to a query
    that is not blank holds exactly [min(k, n)] results without
    re-ranking and [min(k, rerank_k, n)] with it, [n] being the number
    of vectors. *)
Theorem search_result_count query k rerank rerank_k s resp :
  blank query = false -> 0 <= k -> 0 <= rerank_k ->
  fst (search get_embedding cosine_similarity time_time sorting
              query k rerank rerank_k s) = inr resp ->
  exists rs,
    results_of resp = Some rs /\
    Z.of_nat (List.length rs) =
    Z.min (Z.min k (if rerank then rerank_k else k))
          (Z.of_nat (List.length (embeddings (self s)))).
Proof.
  intros Hb Hk Hrk. rewrite (search_run _ _ _ _ _ _ _ _ _ Hb).
  destruct (encodable query); [|discriminate].
  destruct (get_embedding query) as [q|]; [|discriminate].
  destruct (ranking cosine_similarity sorting (self s) q k) as [x|candidates]
        eqn:Hr;
    [discriminate|].
  cbv zeta. destruct (py_int _) as [x|latency]; [discriminate|].
  simpl fst. intros H. injection H as <-.
  eexists. split; [apply results_of_response|].
  rewrite length_map.
  pose proof (ranking_exact_length _ _ _ _ Hr) as Hlen.
  assert (Hk0 : (k <? 0) = false) by (apply Z.ltb_ge; lia).
  rewrite Hk0 in Hlen.
  destruct rerank; rewrite slice_to_exact_length.
  - assert (Hr0 : (rerank_k <? 0) = false) by (apply Z.ltb_ge; lia).
    rewrite Hr0. lia.
  - rewrite Hk0. lia.
Qed.

(** X6: a [rerank_k] that is not below [k] changes nothing: the
    results with re-ranking are those without it, whatever [rerank_k]
    the other call is given. *)
Theorem rerank_k_beyond_k query k rerank_k rerank_k' s :
  0 <= k -> k <= rerank_k ->
  returned_results
    (search get_embedding cosine_similarity time_time sorting
            query k true rerank_k s) =
  returned_results
    (search get_embedding cosine_similarity time_time sorting
            query k false rerank_k' s).
Proof.
  intros Hk Hrk. destruct (blank query) eqn:Hb.
  - now rewrite !(search_blank_run _ _ _ _ _ _ _ _ _ Hb).
  - rewrite !(search_run _ _ _ _ _ _ _ _ _ Hb).
    destruct (encodable query); [|reflexivity].
    destruct (get_embedding query) as [q|]; [|reflexivity].
    destruct (ranking cosine_similarity sorting (self s) q k) as [x|candidates]
      eqn:Hr; [reflexivity|].
    cbv zeta. destruct (py_int _) as [x|latency]; [reflexivity|].
    destruct (ranking_length _ _ _ _ _ _ Hk Hr) as [Hlk _].
    change (Some (map format_result (slice_to candidates rerank_k)) =
            Some (map format_result (slice_to candidates k))).
    rewrite !slice_to_all by lia. reflexivity.
Qed.

(** X7: asking for more results does not change the first ones: for
    [0 <= k <= k'] the results for [k] are the first [k] of the
    results for [k'] (without re-ranking), and a call that raises
    does so for both. *)
Theorem search_prefix_stable query k k' rerank_k rerank_k' s :
  0 <= k -> k <= k' ->
  returned_results
    (search get_embedding cosine_similarity time_time sorting
            query k false rerank_k s) =
  option_map
    (fun l => slice_to l k)
    (returned_results
       (search get_embedding cosine_similarity time_time sorting
               query k' false rerank_k' s)).
Proof.
  intros Hk Hk'. destruct (blank query) eqn:Hb.
  - rewrite !(search_blank_run _ _ _ _ _ _ _ _ _ Hb).
    unfold returned_results. simpl. unfold slice_to.
    destruct (k <? 0); now rewrite firstn_nil.
  - rewrite !(search_run _ _ _ _ _ _ _ _ _ Hb).
    destruct (encodable query); [|reflexivity].
    destruct (get_embedding query) as [q|]; [|reflexivity].
    rewrite !ranking_run.
    destruct (List.length (embeddings (self s))
              <=? List.length (documents (self s)))%nat; [|reflexivity].
    cbv zeta. destruct (py_int _) as [x|latency]; [reflexivity|].
    set (sorted := sort_by sorting sort_key tuple_lt _).
    change (Some (map format_result (slice_to (slice_to sorted k) k)) =
            Some (slice_to
                    (map format_result (slice_to (slice_to sorted k') k'))
                    k)).
    f_equal. rewrite slice_to_map. f_equal.
    rewrite !slice_to_slice_to by lia. reflexivity.
Qed.


Lemma sorted_app_cross {A} (R : A -> A -> Prop) l1 l2 :
  StronglySorted R (l1 ++ l2) ->
  Forall (fun a => Forall (R a) l2) l1.
Proof.
  induction l1 as [|a l1 IH]; simpl; intros H; [constructor|].
  inversion H as [|? ? Hs Hall]; subst.
  constructor; [|now apply IH].
  rewrite Forall_forall in *. intros b Hb. apply Hall.
  apply in_or_app. now right.
Qed.

Lemma slice_to_split {A} (l : list A) k :
  exists rest, l = slice_to l k ++ rest.
Proof.
  unfold slice_to. destruct (k <? 0).
  - exists (skipn (Z.to_nat (Z.of_nat (List.length l) + k)) l).
    now rewrite firstn_skipn.
  - exists (skipn (Z.to_nat k) l). now rewrite firstn_skipn.
Qed.

(** X8: what [vector_search] returns are the best candidates: when no
    score is NaN, the candidates split into the returned list and a
    rest, and every returned candidate ranks before every one of the
    rest. *)
Theorem vector_search_top_k q k s l :
  Forall (fun e => isnan (cosine_similarity q e) = false)
         (embeddings (self s)) ->
  fst (vector_search cosine_similarity sorting q k s) = inr l ->
  exists rest,
    Permutation
      (scored cosine_similarity (documents (self s)) q (embeddings (self s)))
      (l ++ rest) /\
    Forall (fun a => Forall (ranks_before a) rest) l.
Proof.
  intros Hnum. rewrite vector_search_run, ranking_run. simpl.
  destruct (List.length (embeddings (self s))
            <=? List.length (documents (self s)))%nat; [|discriminate].
  intros H. injection H as <-.
  set (sims := scored cosine_similarity _ q _).
  assert (Hn : Forall numeric sims) by now apply scored_numeric.
  rewrite (sort_by_numeric sorting sims Hn).
  destruct (slice_to_split (list_sort sort_key tuple_lt sims) k)
    as [rest Hrest].
  exists rest. split.
  - rewrite <- Hrest. apply list_sort_perm.
  - apply sorted_app_cross. rewrite <- Hrest.
    now apply list_sort_ranked.
Qed.

Lemma ranking_from_documents e q k l c :
  ranking cosine_similarity sorting e q k = inr l -> In c l ->
  exists d v, In d (documents e) /\ In v (embeddings e) /\
              c = make_candidate d (cosine_similarity q v).
Proof.
  rewrite ranking_run.
  destruct (_ <=? _)%nat; [|discriminate].
  intros H Hc. injection H as <-. apply slice_to_In in Hc.
  apply (Permutation_in _ (Permutation_sym (sort_by_perm sorting _))) in Hc.
  now apply scored_from_documents.
Qed.

(** X9: every result of a response is made from one document of the
    corpus and the score of one of the vectors: it carries that
    document's id and content, and its title and source, the empty
    string standing for a missing one. *)
Theorem results_come_from_documents query k rerank rerank_k s resp rs :
  fst (search get_embedding cosine_similarity time_time sorting
              query k rerank rerank_k s) = inr resp ->
  results_of resp = Some rs ->
  Forall
    (fun r =>
       exists d q v,
         In d (documents (self s)) /\ In v (embeddings (self s)) /\
         get_embedding query = Some q /\
         r = format_result (make_candidate d (cosine_similarity q v)) /\
         field r "id" = Some (VInt (doc_id d)) /\
         field r "content" = Some (VStr (doc_content d)) /\
         exists m,
           field r "metadata" = Some m /\
           field m "title" =
             Some (VStr (match doc_title d with
                         | Some t => t
                         | None => []
                         end)) /\
           field m "source" =
             Some (VStr (match doc_source d with
                         | Some t => t
                         | None => []
                         end)))
    rs.
Proof.
  destruct (blank query) eqn:Hb.
  - rewrite (search_blank_run _ _ _ _ _ _ _ _ _ Hb). simpl fst.
    intros H. injection H as <-. rewrite results_of_response.
    intros H. injection H as <-. constructor.
  - rewrite (search_run _ _ _ _ _ _ _ _ _ Hb).
    destruct (encodable query); [|discriminate].
    destruct (get_embedding query) as [q|]; [|discriminate].
    destruct (ranking cosine_similarity sorting (self s) q k) as [x|candidates]
      eqn:Hr; [discriminate|].
    cbv zeta. destruct (py_int _) as [x|latency]; [discriminate|].
    simpl fst. intros H. injection H as <-. rewrite results_of_response.
    intros H. injection H as <-.
    apply Forall_forall. intros r Hin.
    apply in_map_iff in Hin as (c & <- & Hc).
    assert (Hc' : In c candidates)
      by (destruct rerank; now apply slice_to_In in Hc).
    destruct (ranking_from_documents _ _ _ _ _ Hr Hc')
      as (d & v & Hd & Hv & ->).
    exists d, q, v. repeat split; try assumption.
    eexists. repeat split.
Qed.

Lemma map_fst_combine {A B} (l : list A) (l' : list B) :
  map fst (combine l l') = firstn (List.length l') l.
Proof.
  revert l'. induction l as [|a l IH]; intros [|b l']; simpl;
    try reflexivity.
  now rewrite IH.
Qed.

Lemma NoDup_firstn {A} n (l : list A) : NoDup l -> NoDup (firstn n l).
Proof.
  intros H. rewrite <- (firstn_skipn n l) in H.
  now apply NoDup_app_remove_r in H.
Qed.

Lemma NoDup_slice_to {A} (l : list A) k : NoDup l -> NoDup (slice_to l k).
Proof. unfold slice_to. destruct (k <? 0); apply NoDup_firstn. Qed.

Lemma scored_ids q docs embs :
  map cand_id (scored cosine_similarity docs q embs) =
  firstn (List.length embs) (map doc_id docs).
Proof.
  unfold scored. rewrite map_map. simpl.
  rewrite firstn_map, <- map_fst_combine, map_map. reflexivity.
Qed.

Lemma ranking_distinct_ids e q k l :
  NoDup (map doc_id (documents e)) ->
  ranking cosine_similarity sorting e q k = inr l ->
  NoDup (map cand_id l).
Proof.
  intros Hnd. rewrite ranking_run.
  destruct (_ <=? _)%nat; [|discriminate].
  intros H. injection H as <-.
  rewrite <- slice_to_map. apply NoDup_slice_to.
  eapply Permutation_NoDup;
    [apply Permutation_map, sort_by_perm|].
  rewrite scored_ids. now apply NoDup_firstn.
Qed.

(** X10: when the documents of the corpus have distinct ids, no id
    comes twice in the results of a response. *)
Theorem results_distinct_ids query k rerank rerank_k s resp rs :
  NoDup (map doc_id (documents (self s))) ->
  fst (search get_embedding cosine_similarity time_time sorting
              query k rerank rerank_k s) = inr resp ->
  results_of resp = Some rs ->
  NoDup (map id_of rs) /\ Forall (fun r => id_of r <> None) rs.
Proof.
  intros Hnd. destruct (blank query) eqn:Hb.
  - rewrite (search_blank_run _ _ _ _ _ _ _ _ _ Hb). simpl fst.
    intros H. injection H as <-. rewrite results_of_response.
    intros H. injection H as <-. split; constructor.
  - rewrite (search_run _ _ _ _ _ _ _ _ _ Hb).
    destruct (encodable query); [|discriminate].
    destruct (get_embedding query) as [q|]; [|discriminate].
    destruct (ranking cosine_similarity sorting (self s) q k) as [x|candidates]
      eqn:Hr; [discriminate|].
    cbv zeta. destruct (py_int _) as [x|latency]; [discriminate|].
    simpl fst. intros H. injection H as <-. rewrite results_of_response.
    intros H. injection H as <-.
    pose proof (ranking_distinct_ids _ _ _ _ Hnd Hr) as Hids.
    split.
    + rewrite map_map.
      change (fun x => id_of (format_result x))
        with (fun x => Some (cand_id x)).
      rewrite <- (map_map cand_id Some).
      apply Finite.Injective_map_NoDup; [intros a b H; now injection H|].
      destruct rerank; rewrite <- slice_to_map; now apply NoDup_slice_to.
    + apply Forall_forall. intros r Hin.
      apply in_map_iff in Hin as (c & <- & _). discriminate.
Qed.


(** X11: the results, the flag and the document count of a response
    depend on the engine only: two searches for the same query on
    engines with the same documents and embeddings, with any clocks
    and any record of earlier calls, return the same ones. *)
Theorem search_results_ignore_clock
        query k rerank rerank_k s s' (other_time : nat -> float) resp resp' :
  self s' = self s ->
  fst (search get_embedding cosine_similarity time_time sorting
              query k rerank rerank_k s) = inr resp ->
  fst (search get_embedding cosine_similarity other_time sorting
              query k rerank rerank_k s') = inr resp' ->
  results_of resp' = results_of resp /\
  reranked_of resp' = reranked_of resp /\
  exists m m',
    field resp "metrics" = Some m /\ field resp' "metrics" = Some m' /\
    field m' "totalDocs" = field m "totalDocs".
Proof.
  intros Hs. destruct (blank query) eqn:Hb.
  - rewrite !(search_blank_run _ _ _ _ _ _ _ _ _ Hb), Hs. simpl fst.
    intros H H'. injection H as <-. injection H' as <-.
    repeat split. eexists. eexists. repeat split.
  - rewrite !(search_run _ _ _ _ _ _ _ _ _ Hb), Hs.
    destruct (encodable query); [|discriminate].
    destruct (get_embedding query) as [q|]; [|discriminate].
    destruct (ranking cosine_similarity sorting (self s) q k) as [x|candidates];
      [discriminate|].
    cbv zeta.
    destruct (py_int (mul (sub (time_time _) _) _)) as [x|latency];
      [discriminate|].
    destruct (py_int (mul (sub (other_time _) _) _)) as [x|latency'];
      [discriminate|].
    simpl fst. intros H H'. injection H as <-. injection H' as <-.
    repeat split. eexists. eexists. repeat split.
Qed.

(** X12: when the corpus file cannot be read [__init__] raises before
    it reaches the embeddings: the engine is left with no documents
    and no embeddings and the world, the cache in it, is as before. *)
Theorem init_missing_corpus s0 :
  data_file (env s0) = None ->
  fst (init compute_document_embeddings s0) = inl FileNotFoundError /\
  documents (self (snd (init compute_document_embeddings s0))) = [] /\
  embeddings (self (snd (init compute_document_embeddings s0))) = [] /\
  env (snd (init compute_document_embeddings s0)) = env s0.
Proof.
  intros Hd. rewrite init_run, Hd. repeat split.
Qed.

(** X13: after [__init__] has returned the cache holds the embeddings
    of the engine, and building the engine again from that world gives
    the same engine and the same world, whatever the engine held
    before and whatever the bulk computer would return: it is not
    consulted. *)
Theorem init_cache_round_trip s0 s1
        (other_compute : list document -> list vec) s0' :
  init compute_document_embeddings s0 = (inr tt, s1) ->
  env s0' = env s1 ->
  cache_file (env s1) = Some (embeddings (self s1)) /\
  data_file (env s1) = Some (documents (self s1)) /\
  init other_compute s0' = (inr tt, s1).
Proof.
  rewrite init_run. intros Hinit Henv.
  destruct (data_file (env s0)) as [d|] eqn:Hd; [|discriminate].
  destruct (cache_file (env s0)) as [e|] eqn:He;
    injection Hinit as <-; simpl in Henv; simpl;
    (split; [try assumption; reflexivity|]);
    (split; [try assumption; reflexivity|]);
    rewrite init_run, Henv; simpl; rewrite Hd, ?He; reflexivity.
Qed.

End MoreEngineFacts.

(** X14: the normalised score saturates: a score that is not above 0
    (a negative one, minus infinity, a zero) comes out as 0.0, and one
    that is not below 1 (plus infinity among them) as 1.0. *)
Theorem normalize_score_saturates x :
  isnan x = false ->
  (ltb zero x = false -> normalize_score (Some x) = zero) /\
  (ltb x one = false -> normalize_score (Some x) = one).
Proof.
  intros Hnan. split; intros H.
  - destruct x as [[|]|[|]| |[|] m e]; try discriminate; reflexivity.
  - rewrite one_finite in H.
    destruct x as [[|]|[|]| |[|] m e]; try discriminate H;
      try discriminate Hnan; try reflexivity.
    unfold normalize_score, truthy, py_max, py_min, gtb.
    change (eqb (S754_finite false m e) zero) with false.
    cbv beta iota zeta. simpl negb. cbv iota.
    change (isnan (S754_finite false m e)) with false. cbv iota.
    rewrite one_finite, H. reflexivity.
Qed.

(** ** The ranking and the order of the corpus *)

Lemma NoDup_map_eq {A B} (f : A -> B) l a b :
  NoDup (map f l) -> In a l -> In b l -> f a = f b -> a = b.
Proof.
  induction l as [|c l IH]; simpl; intros Hnd Ha Hb Hab; [contradiction|].
  inversion Hnd as [|? ? Hnot Hnd']; subst.
  destruct Ha as [->|Ha], Hb as [->|Hb]; auto.
  - exfalso. apply Hnot. rewrite Hab. now apply in_map.
  - exfalso. apply Hnot. rewrite <- Hab. now apply in_map.
Qed.

(** Two numeric candidates with different ids are ordered one way or
    the other by the sort key. *)
Lemma sorts_before_total a b :
  cand_id a <> cand_id b -> sorts_before a b \/ sorts_before b a.
Proof.
  intros Hid. unfold sorts_before.
  destruct (below_total (place (cand_score a)) (place (cand_score b)))
    as [H|[H|H]].
  - right. now left.
  - destruct (Z.lt_total (cand_id a) (cand_id b)) as [Hlt|[Heq|Hgt]].
    + left. right. now split.
    + contradiction.
    + right. right. split; [now symmetry|lia].
  - left. now left.
Qed.

(** A list of numeric candidates with distinct ids has one sorted
    rearrangement only. *)
Lemma sorted_rearrangement_unique : forall l l',
  Permutation l l' ->
  Forall numeric l ->
  NoDup (map cand_id l) ->
  StronglySorted (fun a b => tuple_lt (sort_key b) (sort_key a) = false) l ->
  StronglySorted (fun a b => tuple_lt (sort_key b) (sort_key a) = false) l' ->
  l = l'.
Proof.
  induction l as [|a l IH]; intros l' Hperm Hnum Hnd Hs Hs'.
  - apply Permutation_nil in Hperm. now subst.
  - destruct l' as [|b l'].
    { apply Permutation_sym, Permutation_nil in Hperm. discriminate. }
    inversion Hs as [|? ? Hsl Hall]; subst.
    inversion Hs' as [|? ? Hsl' Hall']; subst.
    assert (Hb : In b (a :: l))
      by (apply (Permutation_in _ (Permutation_sym Hperm)); now left).
    assert (Ha : In a (b :: l'))
      by (apply (Permutation_in _ Hperm); now left).
    assert (Hab : a = b).
    { destruct (Z.eq_dec (cand_id a) (cand_id b)) as [Hid|Hid].
      - apply (NoDup_map_eq cand_id (a :: l)); auto. now left.
      - exfalso.
        destruct Hb as [Hb|Hb]; [congruence|].
        destruct Ha as [Ha|Ha]; [congruence|].
        rewrite Forall_forall in Hall, Hall', Hnum.
        pose proof (Hall b Hb) as Hle. pose proof (Hall' a Ha) as Hle'.
        assert (Hna : numeric a) by (apply Hnum; now left).
        assert (Hnb : numeric b) by (apply Hnum; now right).
        destruct (sorts_before_total a b Hid) as [H|H].
        + apply (tuple_lt_sorts_before a b Hna Hnb) in H. congruence.
        + apply (tuple_lt_sorts_before b a Hnb Hna) in H. congruence. }
    subst b. f_equal.
    inversion Hnum; subst. inversion Hnd; subst.
    apply IH; auto. now apply Permutation_cons_inv in Hperm.
Qed.

(** The sorted candidates are in the order of their keys when every
    score is a number. *)
Lemma list_sort_keys_sorted l :
  Forall numeric l ->
  StronglySorted (fun a b => tuple_lt (sort_key b) (sort_key a) = false)
                 (list_sort sort_key tuple_lt l).
Proof.
  intros Hl.
  apply (list_sort_sorted sort_key tuple_lt numeric); [| |exact Hl].
  - intros a b Ha Hb H.
    apply (tuple_lt_sorts_before a b Ha Hb) in H.
    apply sorts_before_asym in H.
    destruct (tuple_lt (sort_key b) (sort_key a)) eqn:E; [|reflexivity].
    apply (tuple_lt_sorts_before b a Hb Ha) in E. contradiction.
  - intros a b c Ha Hb Hc Hab Hbc.
    destruct (tuple_lt (sort_key c) (sort_key a)) eqn:E; [|reflexivity].
    apply (tuple_lt_sorts_before c a Hc Ha) in E.
    exfalso. revert E. apply (sorts_before_negtrans a b c).
    + intros H. apply (tuple_lt_sorts_before b a Hb Ha) in H. congruence.
    + intros H. apply (tuple_lt_sorts_before c b Hc Hb) in H. congruence.
Qed.

Section OrderFacts.

Variable cosine_similarity : vec -> vec -> float.
Variable sorting : sorter.

(** X15: the ranking does not depend on the order in which the corpus
    was loaded: two engines that hold the same documents with the same
    vectors in another order, the ids distinct and no score NaN,
    return the same list. *)
Theorem vector_search_ignores_load_order q k s s' :
  aligned (self s) -> aligned (self s') ->
  Permutation (combine (documents (self s)) (embeddings (self s)))
              (combine (documents (self s')) (embeddings (self s'))) ->
  NoDup (map doc_id (documents (self s))) ->
  Forall (fun e => isnan (cosine_similarity q e) = false)
         (embeddings (self s)) ->
  fst (vector_search cosine_similarity sorting q k s') =
  fst (vector_search cosine_similarity sorting q k s).
Proof.
  intros Hal Hal' Hperm Hnd Hnum.
  rewrite !vector_search_run, !ranking_run. simpl fst.
  unfold aligned in Hal, Hal'.
  assert (H1 : (List.length (embeddings (self s))
                <=? List.length (documents (self s)))%nat = true)
    by (apply Nat.leb_le; lia).
  assert (H2 : (List.length (embeddings (self s'))
                <=? List.length (documents (self s')))%nat = true)
    by (apply Nat.leb_le; lia).
  rewrite H1, H2. f_equal. f_equal.
  set (sims := scored cosine_similarity (documents (self s)) q
                      (embeddings (self s))).
  set (sims' := scored cosine_similarity (documents (self s')) q
                       (embeddings (self s'))).
  assert (Hp : Permutation sims sims')
    by (unfold sims, sims', scored; now apply Permutation_map).
  assert (Hn : Forall numeric sims) by now apply scored_numeric.
  assert (Hn' : Forall numeric sims')
    by (eapply Permutation_Forall; eauto).
  assert (Hids : NoDup (map cand_id sims)).
  { unfold sims. rewrite scored_ids. rewrite <- (firstn_skipn
      (List.length (embeddings (self s))) (map doc_id (documents (self s))))
      in Hnd. now apply NoDup_app_remove_r in Hnd. }
  rewrite (sort_by_numeric sorting sims Hn).
  rewrite (sort_by_numeric sorting sims' Hn').
  symmetry. apply sorted_rearrangement_unique.
  - rewrite <- (list_sort_perm sort_key tuple_lt sims).
    rewrite <- (list_sort_perm sort_key tuple_lt sims'). exact Hp.
  - now apply list_sort_good.
  - eapply Permutation_NoDup;
      [apply Permutation_map, list_sort_perm|exact Hids].
  - now apply list_sort_keys_sorted.
  - now apply list_sort_keys_sorted.
Qed.

End OrderFacts.

(** ** The order of the normalised scores *)

Lemma steps4_ok_spec fuel : forall prev z n,
  steps4_ok prev z fuel = true -> prev = rounded4 (z - 1) ->
  z <= n < z + Z.of_nat fuel ->
  ltb (rounded4 (n - 1)) (rounded4 n) = true /\
  valid (rounded4 n) = true /\ level (rounded4 n) = n.
Proof.
  induction fuel as [|fuel IH]; intros prev z n H Hprev Hn; [lia|].
  simpl in H. apply andb_prop in H as [H Hrest].
  apply andb_prop in H as [H Hlevel]. apply andb_prop in H as [Hlt Hvalid].
  destruct (Z.eq_dec n z) as [->|Hne].
  - subst prev. apply Z.eqb_eq in Hlevel. auto.
  - apply (IH (rounded4 z) (z + 1)); [exact Hrest| |lia].
    f_equal. lia.
Qed.

Lemma steps4_all : steps4_ok (rounded4 0) 1 (Z.to_nat 10000) = true.
Proof. vm_compute. reflexivity. Qed.

Lemma rounded4_step n :
  1 <= n <= 10000 ->
  ltb (rounded4 (n - 1)) (rounded4 n) = true /\
  valid (rounded4 n) = true /\ level (rounded4 n) = n.
Proof.
  intros Hn.
  apply (steps4_ok_spec _ _ 1 n steps4_all); [reflexivity|].
  rewrite Z2Nat.id; lia.
Qed.

Lemma rounded4_fixed n :
  0 <= n <= 10000 ->
  valid (rounded4 n) = true /\ level (rounded4 n) = n.
Proof.
  intros Hn. destruct (Z.eq_dec n 0) as [->|Hne]; [split; reflexivity|].
  apply rounded4_step. lia.
Qed.

Lemma ltb_numeric x y :
  ltb x y = true -> isnan x = false /\ isnan y = false.
Proof.
  destruct x as [?|?| |? ? ?], y as [?|?| |? ? ?]; try discriminate;
    intros _; split; reflexivity.
Qed.

Lemma rounded4_numeric n : 0 <= n <= 10000 -> isnan (rounded4 n) = false.
Proof.
  intros Hn. destruct (Z.eq_dec n 0) as [->|Hne]; [reflexivity|].
  destruct (rounded4_step n ltac:(lia)) as [Hlt _].
  now apply ltb_numeric in Hlt.
Qed.

(** The floats [n / 10000] grow with [n]. *)
Lemma rounded4_below n n' :
  0 <= n -> n < n' -> n' <= 10000 ->
  below (place (rounded4 n)) (place (rounded4 n')).
Proof.
  intros Hn Hlt Hn'.
  assert (H : forall d : nat,
             n + 1 + Z.of_nat d <= 10000 ->
             below (place (rounded4 n))
                   (place (rounded4 (n + 1 + Z.of_nat d)))).
  { induction d as [|d IH]; intros Hd.
    - destruct (rounded4_step (n + 1 + Z.of_nat 0) ltac:(lia)) as [Hs _].
      replace (n + 1 + Z.of_nat 0 - 1) with n in Hs by lia.
      apply ltb_below; [apply rounded4_numeric|apply rounded4_numeric|];
        try lia. exact Hs.
    - destruct (rounded4_step (n + 1 + Z.of_nat (S d)) ltac:(lia)) as [Hs _].
      replace (n + 1 + Z.of_nat (S d) - 1) with (n + 1 + Z.of_nat d)
        in Hs by lia.
      apply (below_trans _ (place (rounded4 (n + 1 + Z.of_nat d)))).
      + apply IH. lia.
      + apply ltb_below; [apply rounded4_numeric|apply rounded4_numeric|];
          try lia. exact Hs. }
  specialize (H (Z.to_nat (n' - n - 1))).
  replace (n + 1 + Z.of_nat (Z.to_nat (n' - n - 1))) with n' in H by lia.
  apply H. lia.
Qed.

Lemma lex_compare_gt a b : lex_compare a b = Gt <-> below b a.
Proof.
  destruct a as [[a1 a2] a3], b as [[b1 b2] b3]; simpl.
  destruct (Z.compare_spec a1 b1), (Z.compare_spec a2 b2),
    (Z.compare_spec a3 b3); split; intros Hc; try discriminate; try lia;
    reflexivity.
Qed.

Lemma leb_not_below x y :
  isnan x = false -> isnan y = false ->
  (leb x y = true <-> ~ below (place y) (place x)).
Proof.
  intros Hx Hy. unfold leb, SFleb. rewrite (compare_place x y Hx Hy).
  rewrite <- lex_compare_gt.
  destruct (lex_compare (place x) (place y)); split; congruence.
Qed.

Lemma rounded4_mono n n' :
  0 <= n -> n <= n' -> n' <= 10000 ->
  leb (rounded4 n) (rounded4 n') = true.
Proof.
  intros Hn Hle Hn'.
  apply leb_not_below; try (apply rounded4_numeric; lia).
  destruct (Z.eq_dec n n') as [->|Hne]; [apply below_irrefl|].
  intros H.
  apply (below_irrefl (place (rounded4 n))).
  apply (below_trans _ _ _ (rounded4_below n n' Hn ltac:(lia) Hn') H).
Qed.

(** ** Rounding to the nearest integer grows with the quotient *)

Lemma round_half_even_spec p q :
  0 < q ->
  (2 * round_half_even p q - 1) * q <= 2 * p <=
  (2 * round_half_even p q + 1) * q /\
  (2 * p = (2 * round_half_even p q + 1) * q ->
   Z.even (round_half_even p q) = true) /\
  (2 * p = (2 * round_half_even p q - 1) * q ->
   Z.even (round_half_even p q) = true).
Proof.
  intros Hq. unfold round_half_even.
  pose proof (Z_div_mod p q ltac:(lia)) as Hdm.
  destruct (Z.div_eucl p q) as [d r]. destruct Hdm as [Hp Hr].
  destruct (Z.compare_spec (2 * r) q) as [He|Hl|Hg].
  - destruct (Z.even d) eqn:Hev.
    + repeat split; try nia; intros _; exact Hev.
    + assert (Hev' : Z.even (d + 1) = true).
      { rewrite Z.add_1_r, Z.even_succ, <- Z.negb_even, Hev. reflexivity. }
      repeat split; try nia; intros _; exact Hev'.
  - repeat split; try nia.
  - repeat split; try nia.
Qed.

Lemma round_half_even_mono p q p' q' :
  0 < q -> 0 < q' -> p * q' <= p' * q ->
  round_half_even p q <= round_half_even p' q'.
Proof.
  intros Hq Hq' Hle.
  destruct (round_half_even_spec p q Hq) as ((Hlo & Hhi) & Hup & Hdown).
  destruct (round_half_even_spec p' q' Hq') as ((Hlo' & Hhi') & Hup' & Hdown').
  set (D := round_half_even p q) in *.
  set (D' := round_half_even p' q') in *.
  destruct (Z_le_gt_dec D D') as [H|H]; [exact H|exfalso].
  assert (H1 : (2 * D' + 1) * q <= 2 * p) by nia.
  assert (H2 : (2 * D' + 1) * q * q' <= 2 * p * q') by nia.
  assert (H3 : 2 * p' * q <= (2 * D' + 1) * q' * q) by nia.
  assert (E1 : 2 * p * q' = (2 * D' + 1) * q * q') by nia.
  assert (E2 : 2 * p = (2 * D' + 1) * q) by nia.
  assert (E3 : 2 * p' = (2 * D' + 1) * q') by nia.
  assert (E4 : D = D' + 1) by nia.
  assert (Hd : Z.even D = true) by (apply Hdown; nia).
  assert (Hd' : Z.even D' = true) by (apply Hup'; exact E3).
  rewrite E4, Z.add_1_r, Z.even_succ, <- Z.negb_even, Hd' in Hd.
  discriminate.
Qed.

(** ** The level of a score *)

Lemma normalize_level x : normalize_score (Some x) = rounded4 (level x).
Proof.
  destruct x as [[|]|[|]| |[|] m e]; try reflexivity.
  unfold normalize_score, level, truthy, py_max, py_min, gtb.
  change (eqb (S754_finite false m e) zero) with false.
  simpl negb. cbv iota.
  change (isnan (S754_finite false m e)) with false. cbv iota.
  destruct (ltb (S754_finite false m e) one) eqn:H1.
  - change (ltb zero (S754_finite false m e)) with true. cbv iota.
    reflexivity.
  - change (ltb zero one) with true. cbv iota. reflexivity.
Qed.

Lemma valid_finite s m e :
  valid (S754_finite s m e) = true ->
  -1074 <= e /\ Zpos m < 2 ^ 53 /\ (-1074 < e -> 2 ^ 52 <= Zpos m).
Proof.
  intros Hv. pose proof (valid_mantissa _ _ _ Hv) as Hm.
  unfold valid, valid_binary, bounded, canonical_mantissa, fexp, emin,
    prec, emax in Hv.
  apply andb_prop in Hv as [Hv _]. apply Z.eqb_eq in Hv.
  split; [lia|]. split; [exact Hm|]. intros He.
  assert (Hd : Zpos (digits2_pos m) = 53) by lia.
  assert (Hlow : forall p, 2 ^ (Zpos (digits2_pos p) - 1) <= Zpos p).
  { induction p as [p IH|p IH|]; simpl digits2_pos.
    - rewrite Pos2Z.inj_succ.
      replace (Z.succ (Zpos (digits2_pos p)) - 1)
        with (Z.succ (Zpos (digits2_pos p) - 1)) by lia.
      rewrite Z.pow_succ_r by lia. lia.
    - rewrite Pos2Z.inj_succ.
      replace (Z.succ (Zpos (digits2_pos p)) - 1)
        with (Z.succ (Zpos (digits2_pos p) - 1)) by lia.
      rewrite Z.pow_succ_r by lia. lia.
    - reflexivity. }
  specialize (Hlow m). rewrite Hd in Hlow. exact Hlow.
Qed.

Lemma below_one m e :
  ltb (S754_finite false m e) one = true ->
  e < -52 \/ (e = -52 /\ Zpos m < 2 ^ 52).
Proof.
  intros H. rewrite one_finite in H. rewrite pow_52.
  exact (ltb_finite _ _ _ _ H).
Qed.

Lemma level_range x : valid x = true -> 0 <= level x <= 10000.
Proof.
  intros Hv. destruct x as [[|]|[|]| |[|] m e]; simpl; try lia.
  unfold level. destruct (ltb (S754_finite false m e) one) eqn:H1; [|lia].
  destruct (valid_finite _ _ _ Hv) as (_ & Hm & _).
  apply below_one in H1. unfold scale_round.
  assert (He0 : (0 <=? e) = false) by (apply Z.leb_gt; lia).
  rewrite He0.
  assert (Hpow : Zpos m < 2 ^ (- e)).
  { destruct H1 as [He | [-> Hm52]]; [|exact Hm52].
    eapply Z.lt_le_trans; [exact Hm|]. apply Z.pow_le_mono_r; lia. }
  assert (Hq : 0 < 2 ^ (- e)) by (apply Z.pow_pos_nonneg; lia).
  change (10 ^ Z.of_nat 4) with 10000.
  apply round_half_even_bound; nia.
Qed.

Lemma pow_split a b : 0 <= a -> a < b -> 2 * 2 ^ a <= 2 ^ b.
Proof.
  intros Ha Hab. rewrite <- Z.pow_succ_r by lia.
  apply Z.pow_le_mono_r; lia.
Qed.

(** A score that is not smaller normalises to a level that is not
    smaller. *)
Lemma level_mono x y :
  isnan x = false -> isnan y = false ->
  valid x = true -> valid y = true ->
  leb y x = true -> level y <= level x.
Proof.
  intros Hnx Hny Hvx Hvy Hle.
  pose proof (level_range x Hvx) as Hrx.
  pose proof (level_range y Hvy) as Hry.
  apply (leb_not_below y x Hny Hnx) in Hle.
  destruct y as [[|]|[|]| |[|] my ey]; try (simpl; lia);
    try discriminate Hny.
  - destruct x as [[|]|[|]| |[|] mx ex]; try discriminate Hnx;
      try (exfalso; apply Hle; simpl; lia).
    simpl. lia.
  - destruct x as [[|]|[|]| |[|] mx ex]; try discriminate Hnx;
      try (exfalso; apply Hle; simpl; lia).
    + simpl level at 2. lia.
    + simpl in Hle.
      assert (Hlex : ey < ex \/ (ey = ex /\ Zpos my <= Zpos mx)) by lia.
      clear Hle. unfold level in *.
      destruct (ltb (S754_finite false mx ex) one) eqn:Hx1; [|lia].
      pose proof (below_one _ _ Hx1) as Hx.
      assert (Hy1 : ltb (S754_finite false my ey) one = true).
      { apply ltb_below; [reflexivity|reflexivity|].
        rewrite one_finite. simpl. rewrite <- pow_52. lia. }
      rewrite Hy1.
      destruct (valid_finite _ _ _ Hvx) as (Hex & Hmx & Hnx52).
      destruct (valid_finite _ _ _ Hvy) as (Hey & Hmy & _).
      unfold scale_round.
      assert (He0 : (0 <=? ex) = false) by (apply Z.leb_gt; lia).
      assert (He1 : (0 <=? ey) = false) by (apply Z.leb_gt; lia).
      rewrite He0, He1. change (10 ^ Z.of_nat 4) with 10000.
      assert (Hqx : 0 < 2 ^ (- ex)) by (apply Z.pow_pos_nonneg; lia).
      assert (Hqy : 0 < 2 ^ (- ey)) by (apply Z.pow_pos_nonneg; lia).
      apply round_half_even_mono; try assumption.
      destruct Hlex as [Hlt|[-> Hm]]; [|nia].
      pose proof (pow_split (- ex) (- ey) ltac:(lia) ltac:(lia)) as Hp.
      assert (Hbig : 2 ^ 52 <= Zpos mx) by (apply Hnx52; lia).
      assert (H53 : 2 ^ 53 = 2 * 2 ^ 52) by reflexivity.
      nia.
Qed.

Lemma normalize_score_mono x y :
  isnan x = false -> isnan y = false ->
  valid x = true -> valid y = true ->
  leb y x = true ->
  leb (normalize_score (Some y)) (normalize_score (Some x)) = true.
Proof.
  intros Hnx Hny Hvx Hvy Hle. rewrite !normalize_level.
  pose proof (level_range x Hvx). pose proof (level_range y Hvy).
  apply rounded4_mono; try lia. now apply level_mono.
Qed.

(** X16: normalising a normalised score changes nothing. *)
Theorem normalize_score_idempotent x :
  valid x = true ->
  normalize_score (Some (normalize_score (Some x))) =
  normalize_score (Some x).
Proof.
  intros Hv. rewrite (normalize_level x).
  pose proof (level_range x Hv) as Hr.
  rewrite normalize_level. f_equal. now apply rounded4_fixed.
Qed.

Lemma sorted_map_on {A B} (P : A -> Prop) (R : A -> A -> Prop)
      (R' : B -> B -> Prop) (f : A -> B) l :
  (forall a b, P a -> P b -> R a b -> R' (f a) (f b)) ->
  Forall P l -> StronglySorted R l -> StronglySorted R' (map f l).
Proof.
  intros Hf HP Hs. induction Hs as [|a l Hs IH Hall]; [constructor|].
  inversion HP as [|? ? Pa Pl]; subst. simpl.
  constructor; [now apply IH|].
  rewrite Forall_forall in *. intros y Hy.
  apply in_map_iff in Hy as (b & <- & Hb). apply Hf; auto.
Qed.

Lemma ranks_before_leb a b :
  numeric a -> numeric b -> ranks_before a b ->
  leb (cand_score b) (cand_score a) = true.
Proof.
  unfold numeric, ranks_before, gtb. intros Ha Hb H.
  apply (leb_not_below _ _ Hb Ha).
  destruct H as [H|[H _]].
  - apply (ltb_below _ _ Hb Ha) in H. intros H'.
    exact (below_irrefl _ (below_trans _ _ _ H H')).
  - apply (eqb_place _ _ Ha Hb) in H. rewrite H. apply below_irrefl.
Qed.

Section ScoreOrder.

Variable get_embedding : str -> option vec.
Variable cosine_similarity : vec -> vec -> float.
Variable time_time : nat -> float.
Variable sorting : sorter.

(** X17: the scores of a response never rise along the results: when
    the scores of the query against the vectors are numbers (no NaN),
    each result's score is at most the score of every result before
    it. *)
Theorem response_scores_descend query k rerank rerank_k s q resp rs :
  get_embedding query = Some q ->
  Forall (fun e => isnan (cosine_similarity q e) = false /\
                   valid (cosine_similarity q e) = true)
         (embeddings (self s)) ->
  fst (search get_embedding cosine_similarity time_time sorting
              query k rerank rerank_k s) = inr resp ->
  results_of resp = Some rs ->
  StronglySorted
    (fun r r' => exists x x',
         score_of r = Some x /\ score_of r' = Some x' /\ leb x' x = true)
    rs.
Proof.
  intros Hq Hok. destruct (blank query) eqn:Hb.
  - rewrite (search_blank_run _ _ _ _ _ _ _ _ _ Hb). simpl fst.
    intros H. injection H as <-. rewrite results_of_response.
    intros H. injection H as <-. constructor.
  - rewrite (search_run _ _ _ _ _ _ _ _ _ Hb), Hq, ranking_run.
    destruct (encodable query); [|discriminate].
    destruct (List.length (embeddings (self s))
              <=? List.length (documents (self s)))%nat; [|discriminate].
    cbv zeta. destruct (py_int _) as [x|latency]; [discriminate|].
    simpl fst. intros H. injection H as <-. rewrite results_of_response.
    intros H. injection H as <-.
    set (sims := scored cosine_similarity (documents (self s)) q
                        (embeddings (self s))).
    assert (Hsims : Forall (fun c => numeric c /\ valid (cand_score c) = true)
                           sims).
    { unfold sims, scored. rewrite Forall_forall in *. intros c Hc.
      apply in_map_iff in Hc as ([d e] & <- & Hin).
      apply in_combine_r in Hin. unfold numeric. simpl. now apply Hok. }
    assert (Hnum : Forall numeric sims)
      by (revert Hsims; apply Forall_impl; tauto).
    rewrite (sort_by_numeric sorting sims Hnum).
    pose proof (list_sort_ranked sims Hnum) as Hranked.
    assert (Hsorted :
              Forall (fun c => numeric c /\ valid (cand_score c) = true)
                     (list_sort sort_key tuple_lt sims))
      by (eapply Permutation_Forall; [apply list_sort_perm|exact Hsims]).
    set (sorted := list_sort sort_key tuple_lt sims) in *.
    set (results := if rerank then slice_to (slice_to sorted k) rerank_k
                    else slice_to (slice_to sorted k) k).
    assert (Hres : Forall (fun c => numeric c /\ valid (cand_score c) = true)
                          results).
    { rewrite Forall_forall in *. intros c Hc. apply Hsorted.
      unfold results in Hc.
      destruct rerank; now apply slice_to_In in Hc; apply slice_to_In in Hc. }
    assert (Hrr : StronglySorted ranks_before results)
      by (unfold results; destruct rerank;
          now apply slice_to_sorted, slice_to_sorted).
    revert Hres Hrr. apply sorted_map_on.
    intros a b [Hna Hva] [Hnb Hvb] Hab.
    exists (normalize_score (Some (cand_score a))),
           (normalize_score (Some (cand_score b))).
    split; [reflexivity|]. split; [reflexivity|].
    apply normalize_score_mono; auto. now apply ranks_before_leb.
Qed.

End ScoreOrder.

(** ** The further properties on the example corpus *)

(** Witness of X1: the query " hi " reaches the generator with its spaces. *)
Lemma search_embeds_query_unstripped_witness :
  embed_calls (env (snd (Example.run_search (str_of " hi ") 3 true 3))) =
  [str_of " hi "].
Proof.
  apply (search_embeds_query_unstripped
           Example.embed cosine_similarity_spec Example.clock insertion_sorter
           (str_of " hi ") 3 true 3 Example.loaded 104%N).
  - simpl. tauto.
  - reflexivity.
  - reflexivity.
Defined.




(** Witness of X5: five asked, re-ranking to two, three vectors. *)
Lemma search_result_count_witness :
  exists resp rs,
    fst (Example.run_search (str_of "alpha") 5 true 2) = inr resp /\
    results_of resp = Some rs /\
    Z.of_nat (List.length rs) = Z.min (Z.min 5 2) 3.
Proof.
  eexists.
  destruct (search_result_count
              Example.embed cosine_similarity_spec Example.clock
                    insertion_sorter
              (str_of "alpha") 5 true 2 Example.loaded _
              eq_refl ltac:(lia) ltac:(lia)
              ltac:(vm_compute; reflexivity))
    as (rs & Hrs & Hlen).
  exists rs. split; [reflexivity|]. split; [exact Hrs|exact Hlen].
Defined.

(** Witness of X6: [rerank_k = 7] with [k = 2]. *)
Lemma rerank_k_beyond_k_witness :
  returned_results (Example.run_search (str_of "alpha") 2 true 7) =
  returned_results (Example.run_search (str_of "alpha") 2 false 0) /\
  option_map (@List.length value)
    (returned_results (Example.run_search (str_of "alpha") 2 true 7)) =
  Some 2%nat.
Proof.
  split; [|reflexivity].
  apply (rerank_k_beyond_k
           Example.embed cosine_similarity_spec Example.clock insertion_sorter
           (str_of "alpha") 2 7 0 Example.loaded); lia.
Defined.

(** Witness of X7: the result for [k = 1] heads the results for [k = 3]. *)
Lemma search_prefix_stable_witness :
  returned_results (Example.run_search (str_of "alpha") 1 false 3) =
  option_map (fun l => slice_to l 1)
    (returned_results (Example.run_search (str_of "alpha") 3 false 3)) /\
  option_map (map id_of)
    (returned_results (Example.run_search (str_of "alpha") 1 false 3)) =
  Some [Some 2].
Proof.
  split; [|reflexivity].
  apply (search_prefix_stable
           Example.embed cosine_similarity_spec Example.clock insertion_sorter
           (str_of "alpha") 1 3 3 3 Example.loaded); lia.
Defined.

(** Witness of X4: [k = -1] on three vectors leaves two candidates. *)
Lemma vector_search_length_witness :
  exists l,
    fst (vector_search cosine_similarity_spec insertion_sorter
          Example.query_vector (-1)
                       Example.loaded) = inr l /\
    Z.of_nat (List.length l) = 2.
Proof.
  eexists. split; [vm_compute; reflexivity|].
  apply (vector_search_length cosine_similarity_spec insertion_sorter
        Example.query_vector
           (-1) Example.loaded).
  vm_compute. reflexivity.
Defined.

(** Witness of X8: the two best of three. *)
Lemma vector_search_top_k_witness :
  exists l rest,
    fst (vector_search cosine_similarity_spec insertion_sorter
          Example.query_vector 2
                       Example.loaded) = inr l /\
    map cand_id l = [2; 1] /\
    Forall (fun a => Forall (ranks_before a) rest) l.
Proof.
  eexists.
  destruct (vector_search_top_k cosine_similarity_spec insertion_sorter
              Example.query_vector 2 Example.loaded _
              ltac:(repeat constructor) ltac:(vm_compute; reflexivity))
    as (rest & _ & Hbest).
  exists rest. split; [reflexivity|]. split; [reflexivity|exact Hbest].
Defined.

(** Witness of X9: the one result is a document of the corpus. *)
Lemma results_come_from_documents_witness :
  exists resp rs,
    fst (Example.run_search (str_of "alpha") 3 true 1) = inr resp /\
    results_of resp = Some rs /\
    Forall (fun r => exists d, In d Example.corpus /\
                               field r "id" = Some (VInt (doc_id d))) rs.
Proof.
  eexists. eexists. split; [vm_compute; reflexivity|].
  split; [reflexivity|].
  pose proof (results_come_from_documents
                Example.embed cosine_similarity_spec Example.clock
                      insertion_sorter
                (str_of "alpha") 3 true 1 Example.loaded _ _
                ltac:(vm_compute; reflexivity) eq_refl) as H.
  revert H. apply Forall_impl.
  intros r (d & q & v & Hd & _ & _ & _ & Hid & _).
  exists d. split; assumption.
Defined.

(** Witness of X10: three documents, three ids. *)
Lemma results_distinct_ids_witness :
  exists resp rs,
    fst (Example.run_search (str_of "alpha") 3 false 3) = inr resp /\
    results_of resp = Some rs /\ NoDup (map id_of rs).
Proof.
  eexists. eexists. split; [vm_compute; reflexivity|].
  split; [reflexivity|].
  apply (proj1 (results_distinct_ids
                  Example.embed cosine_similarity_spec Example.clock
                        insertion_sorter
                  (str_of "alpha") 3 false 3 Example.loaded _ _
                  ltac:(repeat constructor; simpl; intuition discriminate)
                  ltac:(vm_compute; reflexivity) eq_refl)).
Defined.

(** Witness of X14: -1.0 gives 0.0 and 2.0 gives 1.0. *)
Lemma normalize_score_saturates_witness :
  normalize_score (Some (neg one)) = zero /\
  normalize_score (Some (of_Z 2)) = one.
Proof.
  split.
  - apply (proj1 (normalize_score_saturates (neg one) eq_refl)).
    reflexivity.
  - apply (proj2 (normalize_score_saturates (of_Z 2) eq_refl)).
    reflexivity.
Defined.

(** Witness of X16: 2/3 gives 0.6667, which stays. *)
Lemma normalize_score_idempotent_witness :
  normalize_score
    (Some (normalize_score (Some (div (of_Z 2) (of_Z 3))))) =
  normalize_score (Some (div (of_Z 2) (of_Z 3))) /\
  normalize_score (Some (div (of_Z 2) (of_Z 3))) = decimal4 6667.
Proof.
  split; [|reflexivity].
  apply (normalize_score_idempotent (div (of_Z 2) (of_Z 3))).
  reflexivity.
Defined.

(** Witness of X17: the scores 1.0, 0.7071, 0.0. *)
Lemma response_scores_descend_witness :
  exists resp rs,
    fst (Example.run_search (str_of "alpha") 3 false 3) = inr resp /\
    results_of resp = Some rs /\
    map score_of rs = [Some one; Some (decimal4 7071); Some zero] /\
    StronglySorted
      (fun r r' => exists x x',
           score_of r = Some x /\ score_of r' = Some x' /\ leb x' x = true)
      rs.
Proof.
  eexists. eexists. split; [vm_compute; reflexivity|].
  split; [reflexivity|]. split; [reflexivity|].
  apply (response_scores_descend
           Example.embed cosine_similarity_spec Example.clock insertion_sorter
           (str_of "alpha") 3 false 3 Example.loaded Example.query_vector
           _ _ eq_refl ltac:(repeat constructor)
           ltac:(vm_compute; reflexivity) eq_refl).
Defined.

(** Witness of X12: no corpus file; the cache stays as it was. *)
Lemma init_missing_corpus_witness :
  fst (init Example.embed_documents (Example.unborn Cases.no_corpus)) =
  inl FileNotFoundError /\
  cache_file
    (env (snd (init Example.embed_documents
                    (Example.unborn Cases.no_corpus)))) =
  Some Example.vectors.
Proof.
  destruct (init_missing_corpus Example.embed_documents
              (Example.unborn Cases.no_corpus) eq_refl)
    as (Hraise & _ & _ & Henv).
  split; [exact Hraise|]. now rewrite Henv.
Defined.

(** Witness of X13: the cache written by a first start is read by a
    second one, whose bulk computer would return nothing. *)
Lemma init_cache_round_trip_witness :
  let s1 := snd (init Example.embed_documents
                      (Example.unborn Example.fresh)) in
  cache_file (env s1) = Some (embeddings (self s1)) /\
  init (fun _ => []) {| self := self Cases.short; env := env s1 |} =
  (inr tt, s1).
Proof.
  cbv zeta.
  destruct (init_cache_round_trip
              Example.embed_documents
              (Example.unborn Example.fresh)
              (snd (init Example.embed_documents
                         (Example.unborn Example.fresh)))
              (fun _ => [])
              {| self := self Cases.short;
                 env := env (snd (init Example.embed_documents
                                       (Example.unborn Example.fresh))) |}
              eq_refl eq_refl)
    as (Hcache & _ & Hagain).
  split; [exact Hcache|exact Hagain].
Defined.

(** Witness of X11: another clock and another past of the world
    change the metrics only. *)
Lemma search_results_ignore_clock_witness :
  exists resp resp',
    fst (Example.run_search (str_of "alpha") 3 true 2) = inr resp /\
    fst (search Example.embed cosine_similarity_spec Cases.still
          insertion_sorter
                (str_of "alpha") 3 true 2 Cases.later) = inr resp' /\
    results_of resp' = results_of resp /\
    field resp' "metrics" <> field resp "metrics".
Proof.
  eexists. eexists.
  split; [vm_compute; reflexivity|]. split; [vm_compute; reflexivity|].
  split; [|vm_compute; discriminate].
  apply (search_results_ignore_clock
           Example.embed cosine_similarity_spec Example.clock insertion_sorter
           (str_of "alpha") 3 true 2 Example.loaded Cases.later Cases.still);
    [reflexivity|vm_compute; reflexivity|vm_compute; reflexivity].
Defined.

(** Witness of X15: the corpus loaded as 3, 1, 2. *)
Lemma vector_search_ignores_load_order_witness :
  fst (vector_search cosine_similarity_spec insertion_sorter
        Example.query_vector 3
                     Cases.shuffled) =
  fst (vector_search cosine_similarity_spec insertion_sorter
        Example.query_vector 3
                     Example.loaded).
Proof.
  apply (vector_search_ignores_load_order cosine_similarity_spec
        insertion_sorter
           Example.query_vector 3 Example.loaded Cases.shuffled).
  - reflexivity.
  - reflexivity.
  - simpl. apply Permutation_sym.
    eapply perm_trans; [apply perm_swap|]. apply perm_skip. apply perm_swap.
  - repeat constructor; simpl; intuition discriminate.
  - repeat constructor.
Defined.
